(** * Settlement engine of glix: [src/services/payment.ts]

    A shallow embedding of the two settlement operations
    [initiateTransaction] and [completeTransaction], together with the part
    of the document store they talk to (find-by-id, find-by-query, update).

    Conventions of the embedding.
    - A relationship field holds either a bare id or a populated document
      (TypeScript [string | T]); this is the type [Ref].
    - Monetary amounts are integers ([Z]), on which JavaScript numbers are
      exact below 2^53.  The source reads [balance!] and [amount!], that is,
      it asserts both numbers are present.
    - The store keeps each collection as the list of its documents, in the
      order and in the form (relationships by id or populated) in which a
      query returns them; [docs[0]] is the head of that list.  A query has a
      page size, which changes neither the head nor the emptiness of its
      result, the only two things the source reads from one.
    - [findByID] and [update] of an id the collection does not hold throw
      a not-found error.
    - Every store call is recorded in a chronological log, so that the number
      and the order of the writes of a call can be stated.
    - A call either returns a response or throws; the store and the log
      survive a throw, so the state at the point of the abort is observable. *)

From Stdlib Require Import ZArith List String Bool Lia.
Import ListNotations.
Local Open Scope string_scope.
Local Open Scope list_scope.
Local Open Scope Z_scope.

(** ** Documents *)

Definition Id := string.

Inductive Collection := Users | Accounts | Transactions.

(** [string | T]: a relationship given by id, or already populated. *)
Inductive Ref (T : Type) : Type :=
| ById (id : Id)
| Doc (doc : T).
Arguments ById {T} id.
Arguments Doc {T} doc.

Inductive Provider := stripe | paypal.

Inductive Status := requested | pending | rejected | accepted.

(** collections/Accounts/config.ts: owner, provider, balance. *)
Record Account := mkAccount {
  account_id : Id;
  owner : Id;
  provider : list Provider;
  balance : Z
}.

(** The fields of a user the settlement code reads: id, email and
    preferredAccount (optional relationship to accounts). *)
Record User := mkUser {
  user_id : Id;
  email : string;
  preferredAccount : option (Ref Account)
}.

(** collections/Transactions/config.ts.  [tx_to] and [tx_status] are
    optional fields. *)
Record Transaction := mkTransaction {
  transaction_id : Id;
  tx_sender : Ref User;
  tx_from : Ref Account;
  tx_receiver : Ref User;
  tx_to : option (Ref Account);
  amount : Z;
  tx_status : option Status
}.

Definition with_balance (b : Z) (a : Account) : Account :=
  {| account_id := account_id a; owner := owner a;
     provider := provider a; balance := b |}.

Definition with_status (st : Status) (t : Transaction) : Transaction :=
  {| transaction_id := transaction_id t; tx_sender := tx_sender t;
     tx_from := tx_from t; tx_receiver := tx_receiver t; tx_to := tx_to t;
     amount := amount t; tx_status := Some st |}.

Definition with_to (r : option (Ref Account)) (t : Transaction) : Transaction :=
  {| transaction_id := transaction_id t; tx_sender := tx_sender t;
     tx_from := tx_from t; tx_receiver := tx_receiver t; tx_to := r;
     amount := amount t; tx_status := tx_status t |}.

(** ** The store *)

Record Store := mkStore {
  users : list User;
  accounts : list Account;
  transactions : list Transaction
}.

(** The [where] clauses the settlement code issues. *)
Inductive Where :=
| OwnerEquals (id : Id)
| EmailEquals (e : string).

(** The [data] objects the settlement code passes to [payload.update]. *)
Inductive Patch :=
| SetBalance (b : Z)
| SetStatus (st : Status).

(** What a collection must provide for the generic calls: its slug, the id
    of a document, its documents in the store, and how a [where] clause
    selects among them. *)
Class Document (T : Type) := {
  slug : Collection;
  doc_id : T -> Id;
  docs : Store -> list T;
  matches : Where -> T -> bool
}.

#[export] Instance Document_Account : Document Account := {|
  slug := Accounts;
  doc_id := account_id;
  docs := accounts;
  matches := fun w a =>
    match w with
    | OwnerEquals o => String.eqb (owner a) o
    | EmailEquals _ => false
    end
|}.

#[export] Instance Document_User : Document User := {|
  slug := Users;
  doc_id := user_id;
  docs := users;
  matches := fun w u =>
    match w with
    | EmailEquals e => String.eqb (email u) e
    | OwnerEquals _ => false
    end
|}.

Definition has_id {T} `{Document T} (id : Id) (d : T) : bool :=
  String.eqb id (doc_id d).

Definition lookup {T} `{Document T} (s : Store) (id : Id) : option T :=
  find (has_id id) (docs s).

Definition select {T} `{Document T} (s : Store) (w : Where) : list T :=
  filter (matches w) (docs s).

Definition patch_account (data : Patch) (a : Account) : Account :=
  match data with
  | SetBalance b => with_balance b a
  | SetStatus _ => a
  end.

Definition patch_transaction (data : Patch) (t : Transaction) : Transaction :=
  match data with
  | SetStatus st => with_status st t
  | SetBalance _ => t
  end.

Definition patch_where {T} (hit : T -> bool) (f : T -> T) (l : list T) : list T :=
  map (fun d => if hit d then f d else d) l.

(** [update] by id: the document with that id gets the fields of [data];
    no such document is a not-found error ([None]). *)
Definition store_update (c : Collection) (id : Id) (data : Patch) (s : Store)
  : option Store :=
  match c with
  | Accounts =>
      if existsb (fun a => String.eqb id (account_id a)) (accounts s)
      then Some {| users := users s;
                   accounts := patch_where (fun a => String.eqb id (account_id a))
                                           (patch_account data) (accounts s);
                   transactions := transactions s |}
      else None
  | Transactions =>
      if existsb (fun t => String.eqb id (transaction_id t)) (transactions s)
      then Some {| users := users s;
                   accounts := accounts s;
                   transactions :=
                     patch_where (fun t => String.eqb id (transaction_id t))
                                 (patch_transaction data) (transactions s) |}
      else None
  | Users =>
      if existsb (fun u => String.eqb id (user_id u)) (users s)
      then Some s else None
  end.

(** ** Effects: store, the transaction object, log, exceptions *)

Inductive Event :=
| EvFindByID (c : Collection) (id : Id)
| EvFind (c : Collection) (w : Where)
| EvUpdate (c : Collection) (id : Id) (data : Patch).

Inductive Error :=
| NotFound (c : Collection) (id : Id)
| TypeError (reading : string)
| ErrorMsg (message : string).

Inductive Completion (A : Type) : Type :=
| Normal (a : A)
| Thrown (e : Error).
Arguments Normal {A} a.
Arguments Thrown {A} e.

(** [this_tx] is the JavaScript object passed as [transaction]: the callee
    assigns to its [to] field and the caller sees the assignment. *)
Record World := mkWorld {
  db : Store;
  this_tx : Transaction;
  log : list Event
}.

Definition Eff (A : Type) : Type := World -> Completion A * World.

Definition ret {A} (a : A) : Eff A := fun w => (Normal a, w).

Definition bind {A B} (m : Eff A) (k : A -> Eff B) : Eff B :=
  fun w =>
    match m w with
    | (Normal a, w') => k a w'
    | (Thrown e, w') => (Thrown e, w')
    end.

Definition throw {A} (e : Error) : Eff A := fun w => (Thrown e, w).

Declare Scope eff_scope.
Delimit Scope eff_scope with eff.
Notation "x <- m ;; k" := (bind m (fun x => k))
  (at level 61, m at next level, right associativity) : eff_scope.
Notation "m ;; k" := (bind m (fun _ => k))
  (at level 61, right associativity) : eff_scope.
Local Open Scope eff_scope.

Definition record (e : Event) (w : World) : World :=
  {| db := db w; this_tx := this_tx w; log := log w ++ [e] |}.

(** [payload.findByID]: the document, or a not-found error. *)
Definition findByID {T} `{Document T} (id : Id) : Eff T :=
  fun w =>
    let w' := record (EvFindByID slug id) w in
    match lookup (db w) id with
    | Some d => (Normal d, w')
    | None => (Thrown (NotFound slug id), w')
    end.

(** [(await payload.find({collection, where})).docs] *)
Definition find_docs {T} `{Document T} (wh : Where) : Eff (list T) :=
  fun w => (Normal (select (db w) wh), record (EvFind slug wh) w).

(** [payload.update({collection, id, data})] *)
Definition update (c : Collection) (id : Id) (data : Patch) : Eff unit :=
  fun w =>
    let w' := record (EvUpdate c id data) w in
    match store_update c id data (db w) with
    | Some s' => (Normal tt, {| db := s'; this_tx := this_tx w'; log := log w' |})
    | None => (Thrown (NotFound c id), w')
    end.

(** Reading the parameter [transaction]. *)
Definition the_transaction : Eff Transaction := fun w => (Normal (this_tx w), w).

(** [transaction.to = r] *)
Definition assign_to (r : option (Ref Account)) : Eff unit :=
  fun w => (Normal tt,
            {| db := db w; this_tx := with_to r (this_tx w); log := log w |}).

(** Reading a property of [docs[0]]: a TypeError when the list is empty. *)
Definition first_doc {T} (reading : string) (l : list T) : Eff T :=
  match l with
  | d :: _ => ret d
  | [] => throw (TypeError reading)
  end.

(** JavaScript truthiness of an optional relationship value: null and
    undefined are falsy, so is the empty string; a populated document and a
    non-empty id are truthy. *)
Definition truthy {T} (r : option (Ref T)) : bool :=
  match r with
  | None => false
  | Some (ById id) => negb (String.eqb id "")
  | Some (Doc _) => true
  end.

Definition is_empty {T} (l : list T) : bool :=
  match l with [] => true | _ => false end.

Inductive Response := Response_json (error : option string) (http_status : Z).

Definition rejected_400 : Response := Response_json (Some "Transaction rejected") 400.
Definition ok_200 : Response := Response_json None 200.

(** ** src/services/payment.ts *)

Definition admin_email : string := "admin@glix.com".

(** [getInstance(maybeInstance, collection, payload)], lines 5-14. *)
Definition getInstance {T} `{Document T} (maybeInstance : Ref T) : Eff T :=
  match maybeInstance with
  | ById id => findByID id
  | Doc d => ret d
  end.

(** [getInstance] at [transaction.to], which may be null or undefined:
    [typeof] of either is not "string", so the value is passed through. *)
Definition getInstance_nullable {T} `{Document T} (maybeInstance : option (Ref T))
  : Eff (option T) :=
  match maybeInstance with
  | Some r => d <- getInstance r ;; ret (Some d)
  | None => ret None
  end.

(** Lines 16-85.  The [console.log] calls have no effect on the store or
    on the transaction and are left out. *)
Definition initiateTransaction : Eff Response :=
  transaction <- the_transaction ;;
  from <- getInstance (tx_from transaction) ;;
  receiver <- getInstance (tx_receiver transaction) ;;
  receiverAccounts <- find_docs (T := Account) (OwnerEquals (user_id receiver)) ;;
  if (balance from <? amount transaction) || is_empty receiverAccounts then
    update Transactions (transaction_id transaction) (SetStatus rejected) ;;
    ret rejected_400
  else
    (if truthy (preferredAccount receiver)
     then assign_to (preferredAccount receiver)
     else assign_to (option_map Doc (hd_error receiverAccounts))) ;;
    adminUsers <- find_docs (T := User) (EmailEquals admin_email) ;;
    adminUser <- first_doc "id" adminUsers ;;
    adminAccounts <- find_docs (T := Account) (OwnerEquals (user_id adminUser)) ;;
    adminAccount <- first_doc "id" adminAccounts ;;
    update Accounts (account_id adminAccount)
           (SetBalance (balance adminAccount + amount transaction)) ;;
    update Accounts (account_id from)
           (SetBalance (balance from - amount transaction)) ;;
    ret ok_200.

(** Lines 87-139.  [getInstance] either returns a document or throws, so
    [!to] holds exactly when [transaction.to] is null or undefined. *)
Definition completeTransaction : Eff Response :=
  transaction <- the_transaction ;;
  to <- getInstance_nullable (tx_to transaction) ;;
  match to with
  | None => throw (ErrorMsg "Target account not found")
  | Some to =>
      adminUserQuery <- find_docs (T := User) (EmailEquals admin_email) ;;
      match hd_error adminUserQuery with
      | None => throw (ErrorMsg "Admin user not found")
      | Some adminUser =>
          adminAccountQuery <-
            find_docs (T := Account) (OwnerEquals (user_id adminUser)) ;;
          match hd_error adminAccountQuery with
          | None => throw (ErrorMsg "Admin account not found")
          | Some adminAccount =>
              update Accounts (account_id adminAccount)
                     (SetBalance (balance adminAccount - amount transaction)) ;;
              update Accounts (account_id to)
                     (SetBalance (balance to + amount transaction)) ;;
              ret ok_200
          end
      end
  end.

(** ** Observations used in the statements *)

(** A call on transaction object [t] against store [s], with an empty log. *)
Definition enter (t : Transaction) (s : Store) : World :=
  {| db := s; this_tx := t; log := [] |}.

Definition outcome {A} (r : Completion A * World) : Completion A := fst r.
Definition after {A} (r : Completion A * World) : World := snd r.

(** The stored balance of the account with a given id. *)
Definition balanceOf (s : Store) (id : Id) : option Z :=
  option_map balance (lookup (T := Account) s id).

(** The persisted record of the transaction with a given id. *)
Definition storedTransaction (s : Store) (id : Id) : option Transaction :=
  find (fun t => String.eqb id (transaction_id t)) (transactions s).

Definition is_update (e : Event) : bool :=
  match e with EvUpdate _ _ _ => true | _ => false end.

(** The writes of a log, in order. *)
Definition writes (l : list Event) : list Event := filter is_update l.

(** What [getInstance] yields on a store, without the effects. *)
Definition resolve {T} `{Document T} (s : Store) (r : Ref T) : option T :=
  match r with
  | ById id => lookup s id
  | Doc d => Some d
  end.

(** The store reads [getInstance] performs. *)
Definition resolve_events {T} `{Document T} (r : Ref T) : list Event :=
  match r with
  | ById id => [EvFindByID slug id]
  | Doc _ => []
  end.

(** The clearing user: first user with the well-known email. *)
Definition clearingUser (s : Store) : option User :=
  hd_error (select (T := User) s (EmailEquals admin_email)).

(** The clearing account: first account owned by the clearing user. *)
Definition clearingAccount (s : Store) : option Account :=
  match clearingUser s with
  | Some u => hd_error (select (T := Account) s (OwnerEquals (user_id u)))
  | None => None
  end.

(** The accounts the store lists as owned by a user. *)
Definition accountsOwnedBy (s : Store) (u : User) : list Account :=
  select (T := Account) s (OwnerEquals (user_id u)).

(** The test of line 35. *)
Definition rejection_test (from : Account) (t : Transaction)
           (receiverAccounts : list Account) : bool :=
  (balance from <? amount t) || is_empty receiverAccounts.

(** The destination lines 47-51 choose. *)
Definition chosen_destination (receiver : User) (receiverAccounts : list Account)
  : option (Ref Account) :=
  if truthy (preferredAccount receiver)
  then preferredAccount receiver
  else option_map Doc (hd_error receiverAccounts).

Definition append_log (es : list Event) (w : World) : World :=
  {| db := db w; this_tx := this_tx w; log := log w ++ es |}.

(** The id a failed [getInstance] was looking for. *)
Definition missing_id {T} (r : Ref T) : Id :=
  match r with ById id => id | Doc _ => "" end.

(** What [update] with a new balance does to one account document. *)
Definition set_balance_if (id : Id) (b : Z) (a : Account) : Account :=
  if String.eqb id (account_id a) then with_balance b a else a.

(** The call threw, and at that point the store is the one the call started
    from and no write had been issued. *)
Definition aborted_before_mutation {A} (r : Completion A * World) (s : Store) : Prop :=
  (exists e, outcome r = Thrown e) /\ db (after r) = s /\ writes (log (after r)) = [].

Definition is_none {A} (o : option A) : bool :=
  match o with None => true | Some _ => false end.

(** A lookup of [initiateTransaction] fails: the source account or the
    receiver is given by an id the store does not have, or the transfer is
    not rejected and the clearing user or the clearing account is missing. *)
Definition initiate_lookup_fails (t : Transaction) (s : Store) : bool :=
  match resolve s (tx_from t), resolve s (tx_receiver t) with
  | Some from, Some receiver =>
      negb (rejection_test from t (accountsOwnedBy s receiver))
      && is_none (clearingAccount s)
  | _, _ => true
  end.

(** A lookup of [completeTransaction] fails: [to] is unset or names an id
    the store does not have, or the clearing user or account is missing. *)
Definition complete_lookup_fails (t : Transaction) (s : Store) : bool :=
  match tx_to t with
  | None => true
  | Some r => is_none (resolve s r) || is_none (clearingAccount s)
  end.

Definition all_balances_nonnegative (s : Store) : Prop :=
  forall a, In a (accounts s) -> 0 <= balance a.

(** ** Exact arithmetic

    A balance and an amount are JavaScript numbers (binary64), and the
    source computes with [+] and [-] on them.  Every integer of magnitude
    below 2^53 is such a number, and the sum or difference of two of them
    is exact whenever it is again of magnitude below 2^53: there the [+]
    and [-] of the source are those of [Z].  A statement that only names
    the value one expression of the source produces needs no more than
    that; a statement that uses a law of arithmetic (cancelling an addition
    by a subtraction, adding up two subtractions, summing balances) is
    made for operands and results in this range, outside of which the
    source rounds. *)
Definition js_safe_integer (z : Z) : Prop :=
  - (2 ^ 53 - 1) <= z <= 2 ^ 53 - 1.

(** ** Concrete stores and transactions *)

Module Scenario.

Definition admin : User := mkUser "u0" admin_email None.
Definition alice : User := mkUser "u1" "alpha@email.com" (Some (ById "a1")).
Definition bob : User := mkUser "u2" "beta@email.com" (Some (ById "a2")).
Definition gamma : User := mkUser "u3" "gamma@email.com" None.

Definition clearing : Account := mkAccount "a0" "u0" [stripe] 500.
Definition alice_account : Account := mkAccount "a1" "u1" [stripe] 1000.
Definition bob_account : Account := mkAccount "a2" "u2" [paypal] 250.

(** alice pays bob 400 out of a balance of 1000. *)
Definition pay : Transaction :=
  mkTransaction "t1" (ById "u1") (ById "a1") (ById "u2") None 400 (Some requested).

(** The same payment, with [from] populated. *)
Definition pay_populated : Transaction :=
  mkTransaction "t1" (ById "u1") (Doc alice_account) (ById "u2") None 400
                (Some requested).

(** bob tries to pay 400 out of a balance of 250. *)
Definition overdraw : Transaction :=
  mkTransaction "t2" (ById "u2") (ById "a2") (ById "u1") None 400 (Some requested).

(** alice pays gamma, who owns no account. *)
Definition to_nobody : Transaction :=
  mkTransaction "t3" (ById "u1") (ById "a1") (ById "u3") None 100 (Some requested).

(** The admin pays bob 100 out of the clearing account itself. *)
Definition admin_pays : Transaction :=
  mkTransaction "t4" (ById "u0") (ById "a0") (ById "u2") None 100 (Some requested).

(** alice pays the admin 400. *)
Definition pay_admin : Transaction :=
  mkTransaction "t5" (ById "u1") (ById "a1") (ById "u0") None 400 (Some requested).

(** A transfer of 100 whose destination is the clearing account. *)
Definition into_clearing : Transaction :=
  mkTransaction "t6" (ById "u1") (ById "a1") (ById "u0") (Some (ById "a0")) 100
                (Some pending).

(** A transfer of 800 to bob, already initiated, out of a clearing
    balance of 500. *)
Definition large_completion : Transaction :=
  mkTransaction "t7" (ById "u1") (ById "a1") (ById "u2") (Some (ById "a2")) 800
                (Some pending).

(** bob pays exactly his balance. *)
Definition pay_all : Transaction :=
  mkTransaction "t8" (ById "u2") (ById "a2") (ById "u1") None 250 (Some requested).

(** A transfer whose source account and receiver do not exist. *)
Definition dangling : Transaction :=
  mkTransaction "t9" (ById "u1") (ById "a9") (ById "u9") None 10 (Some requested).

Definition store : Store :=
  {| users := [admin; alice; bob; gamma];
     accounts := [clearing; alice_account; bob_account];
     transactions := [pay; overdraw; to_nobody; admin_pays; pay_admin;
                      into_clearing; large_completion; pay_all; dangling] |}.

(** The same store without the clearing user and its account. *)
Definition store_without_clearing : Store :=
  {| users := [alice; bob; gamma];
     accounts := [alice_account; bob_account];
     transactions := transactions store |}.

End Scenario.

(** ** Further observations *)

(** The sum of all stored balances. *)
Definition total_balance (s : Store) : Z :=
  fold_right (fun a acc => balance a + acc) 0 (accounts s).

(** No two stored accounts share an id. *)
Definition unique_account_ids (s : Store) : Prop :=
  NoDup (map account_id (accounts s)).

(** The accounts collection with every balance blanked: ids, owners,
    providers and order. *)
Definition forget_balances (l : list Account) : list Account :=
  map (with_balance 0) l.

(** ** collections/common/index.ts *)

(** ["admin" | "user"] *)
Inductive Role := RoleAdmin | RoleUser.

Definition role_eqb (a b : Role) : bool :=
  match a, b with
  | RoleAdmin, RoleAdmin => true
  | RoleUser, RoleUser => true
  | _, _ => false
  end.

(** The requesting user as the access functions and hooks read it: its id
    and its roles, which may be absent ([user?.roles?.]). *)
Record TypedUser := mkTypedUser {
  typed_id : Id;
  roles : option (list Role)
}.

(** [xs?.some(p)]: undefined, hence falsy, when the array is absent. *)
Definition some_opt {A} (p : A -> bool) (xs : option (list A)) : bool :=
  match xs with
  | Some l => existsb p l
  | None => false
  end.

(** [checkRole(allRoles, user)], lines 4-17. *)
Definition checkRole (allRoles : list Role) (user : option TypedUser) : bool :=
  match user with
  | Some u =>
      if existsb (fun role =>
                    some_opt (fun individualRole => role_eqb individualRole role)
                             (roles u)) allRoles
      then true
      else false
  | None => false
  end.

(** [Set.prototype.add]: a set keeps insertion order and no duplicate. *)
Definition set_add (r : Role) (s : list Role) : list Role :=
  if existsb (role_eqb r) s then s else s ++ [r].

(** [new Set(iterable)] *)
Definition new_Set (l : list Role) : list Role :=
  fold_left (fun s r => set_add r s) l [].

(** [useProtectRoles({req, data})], lines 32-42.  [data_roles] is
    [data?.roles], absent when [data] or its [roles] is. *)
Definition useProtectRoles (req_user : option TypedUser)
           (data_roles : option (list Role)) : list Role :=
  let isAdmin :=
    match req_user with
    | Some u => some_opt (role_eqb RoleAdmin) (roles u)
    | None => false
    end in
  if negb isAdmin then [RoleUser]
  else
    let userRoles := new_Set (match data_roles with Some l => l | None => [] end) in
    set_add RoleUser userRoles.

(** ** collections/Transactions/config.ts, access.read *)

(** The object literal passed to [Boolean]: an [or] of two equality
    clauses on the requesting user's id. *)
Inductive OrClause := Or (clauses : list (string * option Id)).

(** [Boolean(o)] for an object [o]: every object is truthy. *)
Definition Boolean_of_object {A} (o : A) : bool := true.

(** Lines 8-14. *)
Definition transactions_read (user : option TypedUser) : bool :=
  checkRole [RoleAdmin] user
  || Boolean_of_object (Or [("source", option_map typed_id user);
                            ("destination", option_map typed_id user)]).

(** ** More concrete stores and transactions *)

Module Cases.

(** An account record that is not in the store. *)
Definition ghost_account : Account := mkAccount "a7" "u1" [stripe] 1000.

(** alice pays bob 400 out of a populated account the store does not hold. *)
Definition pay_from_ghost : Transaction :=
  mkTransaction "t1" (ById "u1") (Doc ghost_account) (ById "u2") None 400
                (Some requested).

(** A transfer of 100 whose destination is a populated account the store
    does not hold. *)
Definition pay_into_ghost : Transaction :=
  mkTransaction "t7" (ById "u1") (ById "a1") (ById "u2") (Some (Doc ghost_account))
                100 (Some pending).

(** A transfer of 100 to bob that was rejected, sender and source unknown. *)
Definition rejected_transfer : Transaction :=
  mkTransaction "t7" (ById "u9") (ById "a9") (ById "u9") (Some (ById "a2")) 100
                (Some rejected).

(** The same transfer, pending, with resolvable parties. *)
Definition pending_transfer : Transaction :=
  mkTransaction "t7" (ById "u1") (ById "a1") (ById "u2") (Some (ById "a2")) 100
                (Some pending).

(** alice's payment of 400 to bob, already accepted once and carrying a
    destination and another sender. *)
Definition pay_again : Transaction :=
  mkTransaction "t1" (ById "u3") (ById "a1") (ById "u2") (Some (ById "a0")) 400
                (Some accepted).

(** carol prefers an account the store does not hold, and owns one. *)
Definition carol : User := mkUser "u4" "carol@email.com" (Some (ById "a8")).
Definition carol_account : Account := mkAccount "a4" "u4" [paypal] 0.

Definition pay_carol : Transaction :=
  mkTransaction "t10" (ById "u1") (ById "a1") (ById "u4") None 400 (Some requested).

Definition store_with_carol : Store :=
  {| users := users Scenario.store ++ [carol];
     accounts := accounts Scenario.store ++ [carol_account];
     transactions := transactions Scenario.store ++ [pay_carol] |}.


End Cases.

(** * Properties *)

(** ** The store operations *)

Section StoreFacts.

Variables (id : Id) (b : Z).

Lemma patch_accounts_eq (l : list Account) :
  patch_where (fun a => String.eqb id (account_id a))
              (patch_account (SetBalance b)) l
  = map (set_balance_if id b) l.
Proof. reflexivity. Qed.

Lemma set_balance_if_id (a : Account) :
  account_id (set_balance_if id b a) = account_id a.
Proof. unfold set_balance_if. destruct (String.eqb id (account_id a)); reflexivity. Qed.

Lemma set_balance_if_owner (a : Account) :
  owner (set_balance_if id b a) = owner a.
Proof. unfold set_balance_if. destruct (String.eqb id (account_id a)); reflexivity. Qed.

Lemma find_map_set_balance (id' : Id) (l : list Account) :
  find (has_id id') (map (set_balance_if id b) l)
  = option_map (set_balance_if id b) (find (has_id id') l).
Proof.
  induction l as [|a l IH]; [reflexivity|].
  cbn [map find]. unfold has_id at 1 3. cbn [doc_id Document_Account].
  rewrite set_balance_if_id.
  destruct (String.eqb id' (account_id a)); [reflexivity | exact IH].
Qed.

Lemma filter_owner_map_set_balance (o : Id) (l : list Account) :
  filter (matches (OwnerEquals o)) (map (set_balance_if id b) l)
  = map (set_balance_if id b) (filter (matches (OwnerEquals o)) l).
Proof.
  induction l as [|a l IH]; [reflexivity|].
  cbn [map filter].
  assert (E : matches (OwnerEquals o) (set_balance_if id b a)
              = matches (OwnerEquals o) a).
  { cbn [matches Document_Account]. rewrite set_balance_if_owner. reflexivity. }
  rewrite E.
  destruct (matches (OwnerEquals o) a); cbn [map]; rewrite IH; reflexivity.
Qed.

Lemma existsb_is_found (l : list Account) :
  existsb (fun a => String.eqb id (account_id a)) l
  = negb (is_none (find (has_id id) l)).
Proof.
  induction l as [|a l IH]; [reflexivity|].
  cbn [existsb find]. unfold has_id at 1. cbn [doc_id Document_Account].
  destruct (String.eqb id (account_id a)); [reflexivity | exact IH].
Qed.

(** [update] of a balance, spelled out. *)
Lemma store_update_balance (s : Store) :
  store_update Accounts id (SetBalance b) s =
  match balanceOf s id with
  | Some _ => Some {| users := users s;
                      accounts := map (set_balance_if id b) (accounts s);
                      transactions := transactions s |}
  | None => None
  end.
Proof.
  unfold store_update, balanceOf, lookup. cbn [docs Document_Account].
  rewrite existsb_is_found, patch_accounts_eq.
  destruct (find (has_id id) (accounts s)); reflexivity.
Qed.

Variables (s s' : Store).
Hypothesis Hupd : store_update Accounts id (SetBalance b) s = Some s'.

Lemma update_balance_accounts : accounts s' = map (set_balance_if id b) (accounts s).
Proof.
  rewrite store_update_balance in Hupd.
  destruct (balanceOf s id); [|discriminate].
  injection Hupd as <-. reflexivity.
Qed.

Lemma update_balance_users : users s' = users s.
Proof.
  rewrite store_update_balance in Hupd.
  destruct (balanceOf s id); [|discriminate].
  injection Hupd as <-. reflexivity.
Qed.

Lemma update_balance_transactions : transactions s' = transactions s.
Proof.
  rewrite store_update_balance in Hupd.
  destruct (balanceOf s id); [|discriminate].
  injection Hupd as <-. reflexivity.
Qed.

Lemma update_balance_lookup (id' : Id) :
  lookup (T := Account) s' id'
  = option_map (set_balance_if id b) (lookup (T := Account) s id').
Proof.
  unfold lookup. cbn [docs Document_Account].
  rewrite update_balance_accounts. apply find_map_set_balance.
Qed.

Lemma update_balance_was_stored : balanceOf s id <> None.
Proof.
  rewrite store_update_balance in Hupd.
  destruct (balanceOf s id); [discriminate | discriminate].
Qed.

(** The written account holds the written balance. *)
Lemma update_balance_same : balanceOf s' id = Some b.
Proof.
  pose proof update_balance_was_stored as Hst.
  unfold balanceOf in *. rewrite update_balance_lookup.
  destruct (lookup (T := Account) s id) as [a|] eqn:Ha; [|contradiction].
  cbn [option_map]. unfold set_balance_if.
  unfold lookup in Ha. apply find_some in Ha. destruct Ha as [_ Ha].
  unfold has_id in Ha. cbn [doc_id Document_Account] in Ha.
  rewrite Ha. reflexivity.
Qed.

(** Every other account keeps its balance. *)
Lemma update_balance_other (id' : Id) : id' <> id -> balanceOf s' id' = balanceOf s id'.
Proof.
  intros Hne. unfold balanceOf. rewrite update_balance_lookup.
  destruct (lookup (T := Account) s id') as [a|] eqn:Ha; [|reflexivity].
  cbn [option_map]. unfold set_balance_if.
  unfold lookup in Ha. apply find_some in Ha. destruct Ha as [_ Ha].
  unfold has_id in Ha. cbn [doc_id Document_Account] in Ha.
  apply String.eqb_eq in Ha. subst id'.
  destruct (String.eqb id (account_id a)) eqn:E; [|reflexivity].
  apply String.eqb_eq in E. congruence.
Qed.

Lemma update_balance_stored (id' : Id) : balanceOf s id' <> None -> balanceOf s' id' <> None.
Proof.
  unfold balanceOf. rewrite update_balance_lookup.
  destruct (lookup (T := Account) s id'); cbn; congruence.
Qed.

Lemma update_balance_owned (u : User) :
  accountsOwnedBy s' u = map (set_balance_if id b) (accountsOwnedBy s u).
Proof.
  unfold accountsOwnedBy, select. cbn [docs Document_Account].
  rewrite update_balance_accounts. apply filter_owner_map_set_balance.
Qed.

Lemma update_balance_clearingUser : clearingUser s' = clearingUser s.
Proof.
  unfold clearingUser, select. cbn [docs Document_User].
  rewrite update_balance_users. reflexivity.
Qed.

Lemma update_balance_clearingAccount :
  clearingAccount s' = option_map (set_balance_if id b) (clearingAccount s).
Proof.
  unfold clearingAccount. rewrite update_balance_clearingUser.
  destruct (clearingUser s) as [u|]; [|reflexivity].
  fold (accountsOwnedBy s' u). fold (accountsOwnedBy s u).
  rewrite update_balance_owned.
  destruct (accountsOwnedBy s u); reflexivity.
Qed.

End StoreFacts.

Lemma lookup_account_id (s : Store) (id : Id) (a : Account) :
  lookup s id = Some a -> account_id a = id.
Proof.
  unfold lookup. intros H. apply find_some in H. destruct H as [_ H].
  unfold has_id in H. cbn [doc_id Document_Account] in H.
  apply String.eqb_eq in H. congruence.
Qed.

(** A source given by id is read from the store: the resolved record carries
    the stored balance. *)
Lemma resolve_by_id_in_sync (s : Store) (id : Id) (a : Account) :
  resolve s (ById id) = Some a -> balanceOf s (account_id a) = Some (balance a).
Proof.
  cbn [resolve]. intros H. rewrite (lookup_account_id _ _ _ H).
  unfold balanceOf. rewrite H. reflexivity.
Qed.

Lemma set_balance_if_other (id : Id) (b : Z) (a : Account) :
  account_id a <> id -> set_balance_if id b a = a.
Proof.
  intros Hne. unfold set_balance_if.
  destruct (String.eqb id (account_id a)) eqn:E; [|reflexivity].
  apply String.eqb_eq in E. congruence.
Qed.

Lemma set_balance_if_same (b : Z) (a : Account) :
  set_balance_if (account_id a) b a = with_balance b a.
Proof. unfold set_balance_if. rewrite String.eqb_refl. reflexivity. Qed.

(** The clearing account is a document of the store. *)
Lemma clearingAccount_stored (s : Store) (clr : Account) :
  clearingAccount s = Some clr -> balanceOf s (account_id clr) <> None.
Proof.
  unfold clearingAccount. destruct (clearingUser s) as [u|]; [|discriminate].
  intros H. unfold select in H. cbn [docs Document_Account] in H.
  assert (Hin : In clr (accounts s)).
  { destruct (filter _ (accounts s)) as [|a l] eqn:Hf; [discriminate|].
    injection H as ->.
    assert (Hin' : In clr (filter (matches (OwnerEquals (user_id u))) (accounts s)))
      by (rewrite Hf; left; reflexivity).
    apply filter_In in Hin'. tauto. }
  unfold balanceOf, lookup. cbn [docs Document_Account].
  destruct (find (has_id (account_id clr)) (accounts s)) eqn:Hfind; [discriminate|].
  exfalso. apply (find_none _ _ Hfind) in Hin.
  unfold has_id in Hin. cbn [doc_id Document_Account] in Hin.
  rewrite String.eqb_refl in Hin. discriminate.
Qed.

(** ** Running the effects *)

Lemma bind_run {A B} (m : Eff A) (k : A -> Eff B) w :
  bind m k w = match m w with (Normal a, w') => k a w' | (Thrown e, w') => (Thrown e, w') end.
Proof. reflexivity. Qed.

Lemma getInstance_run {T} `{Document T} (r : Ref T) (w : World) :
  getInstance r w =
  match resolve (db w) r with
  | Some d => (Normal d, append_log (resolve_events r) w)
  | None => (Thrown (NotFound slug (missing_id r)), append_log (resolve_events r) w)
  end.
Proof.
  destruct r as [id|d]; simpl.
  - unfold findByID, record, append_log. destruct (lookup (db w) id); reflexivity.
  - unfold ret, append_log. rewrite app_nil_r. destruct w; reflexivity.
Qed.

Lemma assign_to_run r w :
  assign_to r w =
  (Normal tt, {| db := db w; this_tx := with_to r (this_tx w); log := log w |}).
Proof. reflexivity. Qed.

Lemma find_docs_run {T} `{Document T} wh w :
  find_docs (T := T) wh w = (Normal (select (db w) wh), append_log [EvFind slug wh] w).
Proof. reflexivity. Qed.

Lemma update_run c id data w :
  update c id data w =
  match store_update c id data (db w) with
  | Some s' => (Normal tt, {| db := s'; this_tx := this_tx w;
                              log := log w ++ [EvUpdate c id data] |})
  | None => (Thrown (NotFound c id), append_log [EvUpdate c id data] w)
  end.
Proof. unfold update. destruct (store_update c id data (db w)); reflexivity. Qed.

Lemma first_doc_run {T} reading (l : list T) w :
  first_doc reading l w =
  match hd_error l with
  | Some d => (Normal d, w)
  | None => (Thrown (TypeError reading), w)
  end.
Proof. destruct l; reflexivity. Qed.

Ltac world_eq :=
  unfold append_log; cbn [db log this_tx slug Document_Account Document_User];
  rewrite <- ?app_assoc; cbn [app]; reflexivity.

Ltac run_step :=
  rewrite bind_run;
  first [ rewrite getInstance_run | rewrite assign_to_run | rewrite find_docs_run
        | rewrite update_run | rewrite first_doc_run ];
  cbn [db log this_tx append_log].

Lemma initiate_cases (w : World) :
  let t := this_tx w in
  let s := db w in
  match resolve s (tx_from t) with
  | None =>
      initiateTransaction w =
      (Thrown (NotFound Accounts (missing_id (tx_from t))),
       append_log (resolve_events (tx_from t)) w)
  | Some from =>
      match resolve s (tx_receiver t) with
      | None =>
          initiateTransaction w =
          (Thrown (NotFound Users (missing_id (tx_receiver t))),
           append_log (resolve_events (tx_from t) ++ resolve_events (tx_receiver t)) w)
      | Some receiver =>
          let ra := accountsOwnedBy s receiver in
          let reads := resolve_events (tx_from t) ++ resolve_events (tx_receiver t)
                       ++ [EvFind Accounts (OwnerEquals (user_id receiver))] in
          if rejection_test from t ra then
            let ev := EvUpdate Transactions (transaction_id t) (SetStatus rejected) in
            match store_update Transactions (transaction_id t) (SetStatus rejected) s with
            | Some s' =>
                initiateTransaction w =
                (Normal rejected_400, mkWorld s' t (log w ++ reads ++ [ev]))
            | None =>
                initiateTransaction w =
                (Thrown (NotFound Transactions (transaction_id t)),
                 mkWorld s t (log w ++ reads ++ [ev]))
            end
          else
            let t' := with_to (chosen_destination receiver ra) t in
            let q1 := EvFind Users (EmailEquals admin_email) in
            match clearingUser s with
            | None =>
                initiateTransaction w =
                (Thrown (TypeError "id"), mkWorld s t' (log w ++ reads ++ [q1]))
            | Some adminUser =>
                let q2 := EvFind Accounts (OwnerEquals (user_id adminUser)) in
                match clearingAccount s with
                | None =>
                    initiateTransaction w =
                    (Thrown (TypeError "id"), mkWorld s t' (log w ++ reads ++ [q1; q2]))
                | Some clr =>
                    let u1 := EvUpdate Accounts (account_id clr)
                                       (SetBalance (balance clr + amount t)) in
                    let u2 := EvUpdate Accounts (account_id from)
                                       (SetBalance (balance from - amount t)) in
                    match store_update Accounts (account_id clr)
                                       (SetBalance (balance clr + amount t)) s with
                    | None =>
                        initiateTransaction w =
                        (Thrown (NotFound Accounts (account_id clr)),
                         mkWorld s t' (log w ++ reads ++ [q1; q2; u1]))
                    | Some s1 =>
                        match store_update Accounts (account_id from)
                                           (SetBalance (balance from - amount t)) s1 with
                        | None =>
                            initiateTransaction w =
                            (Thrown (NotFound Accounts (account_id from)),
                             mkWorld s1 t' (log w ++ reads ++ [q1; q2; u1; u2]))
                        | Some s2 =>
                            initiateTransaction w =
                            (Normal ok_200,
                             mkWorld s2 t' (log w ++ reads ++ [q1; q2; u1; u2]))
                        end
                    end
                end
            end
      end
  end.
Proof.
  cbv zeta. unfold initiateTransaction.
  rewrite bind_run. cbn [the_transaction].
  run_step.
  destruct (resolve (db w) (tx_from (this_tx w))) as [from|] eqn:Hfrom; [|world_eq].
  run_step.
  destruct (resolve (db w) (tx_receiver (this_tx w))) as [receiver|] eqn:Hrcv;
    [|world_eq].
  run_step.
  fold (accountsOwnedBy (db w) receiver).
  unfold rejection_test.
  destruct ((balance from <? amount (this_tx w))
            || is_empty (accountsOwnedBy (db w) receiver)) eqn:Hrej.
  - run_step.
    destruct (store_update Transactions _ _ (db w)); world_eq.
  - assert (Hassign :
      (if truthy (preferredAccount receiver)
       then assign_to (preferredAccount receiver)
       else assign_to (option_map Doc (hd_error (accountsOwnedBy (db w) receiver))))
      = assign_to (chosen_destination receiver (accountsOwnedBy (db w) receiver))).
    { unfold chosen_destination. destruct (truthy (preferredAccount receiver)); reflexivity. }
    rewrite Hassign. clear Hassign.
    run_step. run_step. run_step.
    unfold clearingAccount, clearingUser.
    destruct (hd_error (select (db w) (EmailEquals admin_email))) as [adminUser|];
      [|world_eq].
    run_step. run_step.
    destruct (hd_error (select (db w) (OwnerEquals (user_id adminUser)))) as [clr|];
      [|world_eq].
    run_step.
    destruct (store_update Accounts (account_id clr) _ (db w)) as [s1|]; [|world_eq].
    run_step.
    destruct (store_update Accounts (account_id from) _ s1) as [s2|]; world_eq.
Qed.

Lemma complete_cases (w : World) :
  let t := this_tx w in
  let s := db w in
  match tx_to t with
  | None =>
      completeTransaction w = (Thrown (ErrorMsg "Target account not found"), w)
  | Some r =>
      match resolve s r with
      | None =>
          completeTransaction w =
          (Thrown (NotFound Accounts (missing_id r)), append_log (resolve_events r) w)
      | Some to =>
          let q1 := EvFind Users (EmailEquals admin_email) in
          match clearingUser s with
          | None =>
              completeTransaction w =
              (Thrown (ErrorMsg "Admin user not found"),
               mkWorld s t (log w ++ resolve_events r ++ [q1]))
          | Some adminUser =>
              let q2 := EvFind Accounts (OwnerEquals (user_id adminUser)) in
              match clearingAccount s with
              | None =>
                  completeTransaction w =
                  (Thrown (ErrorMsg "Admin account not found"),
                   mkWorld s t (log w ++ resolve_events r ++ [q1; q2]))
              | Some clr =>
                  let u1 := EvUpdate Accounts (account_id clr)
                                     (SetBalance (balance clr - amount t)) in
                  let u2 := EvUpdate Accounts (account_id to)
                                     (SetBalance (balance to + amount t)) in
                  match store_update Accounts (account_id clr)
                                     (SetBalance (balance clr - amount t)) s with
                  | None =>
                      completeTransaction w =
                      (Thrown (NotFound Accounts (account_id clr)),
                       mkWorld s t (log w ++ resolve_events r ++ [q1; q2; u1]))
                  | Some s1 =>
                      match store_update Accounts (account_id to)
                                         (SetBalance (balance to + amount t)) s1 with
                      | None =>
                          completeTransaction w =
                          (Thrown (NotFound Accounts (account_id to)),
                           mkWorld s1 t (log w ++ resolve_events r ++ [q1; q2; u1; u2]))
                      | Some s2 =>
                          completeTransaction w =
                          (Normal ok_200,
                           mkWorld s2 t (log w ++ resolve_events r ++ [q1; q2; u1; u2]))
                      end
                  end
              end
          end
      end
  end.
Proof.
  cbv zeta. unfold completeTransaction.
  rewrite bind_run. cbn [the_transaction].
  rewrite bind_run. unfold getInstance_nullable.
  destruct (tx_to (this_tx w)) as [r|] eqn:Hto; [|reflexivity].
  run_step.
  destruct (resolve (db w) r) as [to|] eqn:Hr; [|world_eq].
  cbn [ret]. run_step.
  unfold clearingAccount, clearingUser.
  destruct (hd_error (select (db w) (EmailEquals admin_email))) as [adminUser|];
    [|world_eq].
  run_step.
  destruct (hd_error (select (db w) (OwnerEquals (user_id adminUser)))) as [clr|];
    [|world_eq].
  run_step.
  destruct (store_update Accounts (account_id clr) _ (db w)) as [s1|]; [|world_eq].
  run_step.
  destruct (store_update Accounts (account_id to) _ s1) as [s2|]; world_eq.
Qed.

(** ** Logs *)

Lemma writes_app (l1 l2 : list Event) : writes (l1 ++ l2) = writes l1 ++ writes l2.
Proof. apply filter_app. Qed.

Lemma writes_resolve_events {T} `{Document T} (r : Ref T) : writes (resolve_events r) = [].
Proof. destruct r; reflexivity. Qed.

Ltac split_cases C :=
  repeat match type of C with
         | match ?x with _ => _ end => destruct x eqn:?
         | if ?x then _ else _ => destruct x eqn:?
         end.

(** ** What a returned response tells about the call *)

Lemma initiate_ok_inv (w w' : World) :
  initiateTransaction w = (Normal ok_200, w') ->
  let t := this_tx w in
  exists from receiver clr s1,
    resolve (db w) (tx_from t) = Some from /\
    resolve (db w) (tx_receiver t) = Some receiver /\
    rejection_test from t (accountsOwnedBy (db w) receiver) = false /\
    clearingAccount (db w) = Some clr /\
    store_update Accounts (account_id clr)
                 (SetBalance (balance clr + amount t)) (db w) = Some s1 /\
    store_update Accounts (account_id from)
                 (SetBalance (balance from - amount t)) s1 = Some (db w') /\
    this_tx w' = with_to (chosen_destination receiver
                                             (accountsOwnedBy (db w) receiver)) t /\
    writes (log w') =
    writes (log w) ++
    [EvUpdate Accounts (account_id clr) (SetBalance (balance clr + amount t));
     EvUpdate Accounts (account_id from) (SetBalance (balance from - amount t))].
Proof.
  intros H. pose proof (initiate_cases w) as C. cbv zeta in *.
  split_cases C; rewrite C in H; try discriminate H.
  injection H as <-.
  do 4 eexists. repeat (split; [first [eassumption | reflexivity]|]). cbn [log].
  rewrite !writes_app, !writes_resolve_events. reflexivity.
Qed.

Lemma initiate_rejected_inv (w w' : World) :
  initiateTransaction w = (Normal rejected_400, w') ->
  let t := this_tx w in
  exists from receiver,
    resolve (db w) (tx_from t) = Some from /\
    resolve (db w) (tx_receiver t) = Some receiver /\
    rejection_test from t (accountsOwnedBy (db w) receiver) = true /\
    store_update Transactions (transaction_id t) (SetStatus rejected) (db w)
    = Some (db w') /\
    this_tx w' = t /\
    log w' = log w ++ resolve_events (tx_from t) ++ resolve_events (tx_receiver t)
                   ++ [EvFind Accounts (OwnerEquals (user_id receiver));
                       EvUpdate Transactions (transaction_id t) (SetStatus rejected)].
Proof.
  intros H. pose proof (initiate_cases w) as C. cbv zeta in *.
  split_cases C; rewrite C in H; try discriminate H.
  injection H as <-.
  do 2 eexists. repeat (split; [first [eassumption | reflexivity]|]). cbn [log].
  rewrite <- !app_assoc. reflexivity.
Qed.

Lemma rejection_test_true_iff (from : Account) (t : Transaction) (ra : list Account) :
  rejection_test from t ra = true <-> (balance from < amount t \/ ra = []).
Proof.
  unfold rejection_test. rewrite orb_true_iff, Z.ltb_lt.
  destruct ra; cbn [is_empty]; intuition congruence.
Qed.

Lemma rejection_test_false_iff (from : Account) (t : Transaction) (ra : list Account) :
  rejection_test from t ra = false <-> (amount t <= balance from /\ ra <> []).
Proof.
  unfold rejection_test. rewrite orb_false_iff, Z.ltb_ge.
  destruct ra; cbn [is_empty]; intuition congruence.
Qed.

(** [update] of a status, spelled out. *)
Lemma store_update_status (id : Id) (st : Status) (s : Store) :
  store_update Transactions id (SetStatus st) s =
  match storedTransaction s id with
  | Some _ =>
      Some {| users := users s;
              accounts := accounts s;
              transactions :=
                map (fun t => if String.eqb id (transaction_id t)
                              then with_status st t else t) (transactions s) |}
  | None => None
  end.
Proof.
  unfold store_update, storedTransaction, patch_where. cbn [patch_transaction].
  assert (E : existsb (fun t => String.eqb id (transaction_id t)) (transactions s)
              = negb (is_none (find (fun t => String.eqb id (transaction_id t))
                                    (transactions s)))).
  { induction (transactions s) as [|x l IH]; [reflexivity|].
    cbn [existsb find]. destruct (String.eqb id (transaction_id x)); [reflexivity|exact IH]. }
  rewrite E. destruct (find _ (transactions s)); reflexivity.
Qed.

Lemma update_status_stored (id : Id) (st : Status) (s s' : Store) :
  store_update Transactions id (SetStatus st) s = Some s' ->
  storedTransaction s' id = option_map (with_status st) (storedTransaction s id)
  /\ storedTransaction s id <> None
  /\ accounts s' = accounts s /\ users s' = users s.
Proof.
  rewrite store_update_status.
  destruct (storedTransaction s id) as [x|] eqn:Hx; [|discriminate].
  intros H. injection H as <-. cbn [accounts users]. repeat split; try discriminate.
  unfold storedTransaction in *. cbn [transactions].
  induction (transactions s) as [|y l IH]; [discriminate|].
  cbn [map find] in *.
  destruct (String.eqb id (transaction_id y)) eqn:E.
  - cbn [with_status transaction_id]. rewrite E. injection Hx as ->. reflexivity.
  - rewrite E. apply IH, Hx.
Qed.

(** ** C1: the effect of a successful initiation *)

(** C1 (as amended).  When [initiateTransaction] returns 200, exactly two
    writes were issued, both to accounts and in this order: the clearing
    account gets its balance as read plus the amount, then the source
    account gets its balance as resolved minus the amount.  Afterwards the
    source holds its resolved balance minus the amount, every account other
    than these two keeps its balance, and, when the source is not the
    clearing account itself, the clearing account holds its former balance
    plus the amount.  A source given by id is resolved to its stored
    balance. *)
Theorem initiate_success_effect (t : Transaction) (s : Store) (w' : World) :
  initiateTransaction (enter t s) = (Normal ok_200, w') ->
  exists from clr,
    resolve s (tx_from t) = Some from /\
    clearingAccount s = Some clr /\
    writes (log w') =
      [EvUpdate Accounts (account_id clr) (SetBalance (balance clr + amount t));
       EvUpdate Accounts (account_id from) (SetBalance (balance from - amount t))] /\
    balanceOf (db w') (account_id from) = Some (balance from - amount t) /\
    (account_id from <> account_id clr ->
     balanceOf (db w') (account_id clr) = Some (balance clr + amount t)) /\
    (forall id, id <> account_id clr -> id <> account_id from ->
                balanceOf (db w') id = balanceOf s id) /\
    (forall id, tx_from t = ById id ->
                balanceOf s (account_id from) = Some (balance from)).
Proof.
  intros H. apply initiate_ok_inv in H. cbn [enter db this_tx log] in H.
  destruct H as (from & receiver & clr & s1 & Hf & Hr & Hrej & Hclr & U1 & U2 & Htx & Hw).
  exists from, clr. repeat split; try assumption.
  - apply (update_balance_same _ _ _ _ U2).
  - intros Hne. rewrite (update_balance_other _ _ _ _ U2) by congruence.
    apply (update_balance_same _ _ _ _ U1).
  - intros id H1 H2. rewrite (update_balance_other _ _ _ _ U2) by assumption.
    apply (update_balance_other _ _ _ _ U1). assumption.
  - intros id E. rewrite E in Hf. eapply resolve_by_id_in_sync; eassumption.
Qed.

Lemma initiate_success_effect_witness :
  exists from clr,
    resolve Scenario.store (tx_from Scenario.pay) = Some from /\
    clearingAccount Scenario.store = Some clr /\
    balanceOf (db (after (initiateTransaction (enter Scenario.pay Scenario.store))))
              (account_id from) = Some (balance from - amount Scenario.pay).
Proof.
  destruct (initiate_success_effect Scenario.pay Scenario.store
              (after (initiateTransaction (enter Scenario.pay Scenario.store))))
    as (from & clr & Hf & Hc & _ & Hb & _).
  - vm_compute. reflexivity.
  - exists from, clr. repeat split; assumption.
Defined.

(** C1 (as stated) fails when the source account is the clearing account:
    the admin pays 100 out of the clearing account, which holds 500.  The
    call returns 200, and the clearing account ends at 400, not at 600. *)
Lemma initiate_from_clearing_counterexample :
  let r := initiateTransaction (enter Scenario.admin_pays Scenario.store) in
  outcome r = Normal ok_200 /\
  clearingAccount Scenario.store = Some Scenario.clearing /\
  balance Scenario.clearing = 500 /\
  amount Scenario.admin_pays = 100 /\
  balanceOf (db (after r)) (account_id Scenario.clearing) = Some 400 /\
  balanceOf (db (after r)) (account_id Scenario.clearing)
  <> Some (balance Scenario.clearing + amount Scenario.admin_pays).
Proof. vm_compute. repeat split; discriminate. Qed.

(** ** C2: rejection *)

(** C2.  For a persisted transaction whose source and receiver resolve,
    [initiateTransaction] returns the rejection response exactly when the
    resolved source balance is below the amount or the store lists no
    account owned by the receiver.  On rejection the persisted transaction
    has status rejected, the only write is that status update, the accounts
    collection is the one before the call, and the call has returned.  In
    particular, an amount equal to the source balance is not rejected when
    the receiver owns an account, and the transfer succeeds once the clearing
    account resolves and the source is a stored account. *)
Theorem initiate_rejects_iff (t : Transaction) (s : Store)
        (from : Account) (receiver : User) :
  resolve s (tx_from t) = Some from ->
  resolve s (tx_receiver t) = Some receiver ->
  storedTransaction s (transaction_id t) <> None ->
  let r := initiateTransaction (enter t s) in
  (outcome r = Normal rejected_400 <->
   (balance from < amount t \/ accountsOwnedBy s receiver = [])) /\
  (outcome r = Normal rejected_400 ->
   option_map tx_status (storedTransaction (db (after r)) (transaction_id t))
   = Some (Some rejected) /\
   writes (log (after r))
   = [EvUpdate Transactions (transaction_id t) (SetStatus rejected)] /\
   accounts (db (after r)) = accounts s /\
   (forall id, balanceOf (db (after r)) id = balanceOf s id)) /\
  (amount t = balance from -> accountsOwnedBy s receiver <> [] ->
   outcome r <> Normal rejected_400) /\
  (amount t = balance from -> accountsOwnedBy s receiver <> [] ->
   clearingAccount s <> None -> balanceOf s (account_id from) <> None ->
   outcome r = Normal ok_200).
Proof.
  intros Hf Hr Hst r.
  assert (Hiff : outcome r = Normal rejected_400 <->
                 rejection_test from t (accountsOwnedBy s receiver) = true).
  { subst r. pose proof (initiate_cases (enter t s)) as C.
    cbv zeta in C. cbn [enter db this_tx log] in C.
    rewrite Hf, Hr in C.
    split_cases C; rewrite C; cbn [outcome fst];
      split; intros H; try discriminate H; try reflexivity.
    rewrite store_update_status in *.
    destruct (storedTransaction s (transaction_id t)); [discriminate|contradiction]. }
  split; [rewrite Hiff; apply rejection_test_true_iff|].
  split.
  - intros Hrej. subst r.
    destruct (initiateTransaction (enter t s)) as [c w'] eqn:E.
    cbn [outcome fst after snd] in *. subst c.
    apply initiate_rejected_inv in E. cbn [enter db this_tx log] in E.
    destruct E as (from' & receiver' & _ & _ & _ & U & _ & Hlog).
    apply update_status_stored in U. destruct U as (Hs' & Hsome & Hacc & _).
    repeat split.
    + rewrite Hs'. destruct (storedTransaction s (transaction_id t)); [reflexivity|contradiction].
    + rewrite Hlog. cbn [app]. rewrite !writes_app, !writes_resolve_events. reflexivity.
    + exact Hacc.
    + intros id. unfold balanceOf, lookup. cbn [docs Document_Account].
      rewrite Hacc. reflexivity.
  - assert (Hnot : amount t = balance from -> accountsOwnedBy s receiver <> [] ->
                   rejection_test from t (accountsOwnedBy s receiver) = false).
    { intros Ha Hne. apply rejection_test_false_iff. split; [lia|assumption]. }
    split.
    + intros Ha Hne Hrej. apply Hiff in Hrej. rewrite (Hnot Ha Hne) in Hrej. discriminate.
    + intros Ha Hne Hclr Hsrc. specialize (Hnot Ha Hne). subst r.
      pose proof (initiate_cases (enter t s)) as C.
      cbv zeta in C. cbn [enter db this_tx log] in C.
      rewrite Hf, Hr, Hnot in C.
      destruct (clearingAccount s) as [clr|] eqn:Hc; [|contradiction].
      assert (Hu : clearingUser s <> None).
      { unfold clearingAccount in Hc. destruct (clearingUser s); [discriminate|discriminate]. }
      destruct (clearingUser s) as [u|]; [|contradiction].
      rewrite store_update_balance in C.
      pose proof (clearingAccount_stored _ _ Hc) as Hcs.
      destruct (balanceOf s (account_id clr)) eqn:Hbc; [|contradiction].
      match type of C with
      | match store_update _ _ _ ?s1 with _ => _ end =>
          assert (U1 : store_update Accounts (account_id clr)
                         (SetBalance (balance clr + amount t)) s = Some s1)
      end.
      { rewrite store_update_balance, Hbc. reflexivity. }
      pose proof (update_balance_stored _ _ _ _ U1 _ Hsrc) as Hsrc1.
      rewrite store_update_balance in C.
      match type of C with
      | context [balanceOf ?s1 (account_id from)] =>
          destruct (balanceOf s1 (account_id from))
      end; [|contradiction].
      rewrite C. reflexivity.
Qed.

Lemma initiate_rejects_iff_witness :
  outcome (initiateTransaction (enter Scenario.overdraw Scenario.store))
  = Normal rejected_400
  /\ outcome (initiateTransaction (enter Scenario.pay_all Scenario.store))
     = Normal ok_200.
Proof.
  split.
  - apply (initiate_rejects_iff Scenario.overdraw Scenario.store
             Scenario.bob_account Scenario.alice);
      [reflexivity | reflexivity | discriminate | left; reflexivity].
  - apply (initiate_rejects_iff Scenario.pay_all Scenario.store
             Scenario.bob_account Scenario.alice);
      [reflexivity | reflexivity | discriminate | reflexivity
       | discriminate | discriminate | discriminate].
Defined.

(** ** C3: the destination *)

(** C3 (as amended).  When [initiateTransaction] returns 200, the [to] field
    of the transaction object passed to the call holds the chosen
    destination: the receiver's [preferredAccount] when that field is set
    (truthy), and otherwise the first account the store lists as owned by the
    receiver, which is an account whose owner is the receiver.  The
    transactions collection of the store is not written. *)
Theorem initiate_success_destination (t : Transaction) (s : Store) (w' : World) :
  initiateTransaction (enter t s) = (Normal ok_200, w') ->
  exists receiver,
    resolve s (tx_receiver t) = Some receiver /\
    (truthy (preferredAccount receiver) = true ->
     tx_to (this_tx w') = preferredAccount receiver) /\
    (truthy (preferredAccount receiver) = false ->
     exists a rest,
       accountsOwnedBy s receiver = a :: rest /\
       tx_to (this_tx w') = Some (Doc a) /\
       owner a = user_id receiver) /\
    transactions (db w') = transactions s.
Proof.
  intros H. apply initiate_ok_inv in H. cbn [enter db this_tx log] in H.
  destruct H as (from & receiver & clr & s1 & Hf & Hr & Hrej & Hclr & U1 & U2 & Htx & Hw).
  exists receiver. split; [assumption|].
  rewrite Htx. cbn [with_to tx_to]. unfold chosen_destination.
  repeat split.
  - intros ->. reflexivity.
  - intros ->. apply rejection_test_false_iff in Hrej. destruct Hrej as [_ Hne].
    destruct (accountsOwnedBy s receiver) as [|a rest] eqn:Hown; [contradiction|].
    exists a, rest. repeat split.
    assert (Hin : In a (accountsOwnedBy s receiver)) by (rewrite Hown; left; reflexivity).
    unfold accountsOwnedBy, select in Hin. apply filter_In in Hin.
    destruct Hin as [_ Hm]. cbn [matches Document_Account] in Hm.
    apply String.eqb_eq. exact Hm.
  - rewrite (update_balance_transactions _ _ _ _ U2).
    apply (update_balance_transactions _ _ _ _ U1).
Qed.

Lemma initiate_success_destination_witness :
  tx_to (this_tx (after (initiateTransaction (enter Scenario.pay Scenario.store))))
  = Some (ById "a2")
  /\ tx_to (this_tx (after (initiateTransaction
                              (enter Scenario.pay_admin Scenario.store))))
     = Some (Doc Scenario.clearing).
Proof.
  split.
  - destruct (initiate_success_destination Scenario.pay Scenario.store
                (after (initiateTransaction (enter Scenario.pay Scenario.store))))
      as (receiver & Hr & Hpref & _).
    + vm_compute. reflexivity.
    + injection Hr as <-. apply Hpref. reflexivity.
  - destruct (initiate_success_destination Scenario.pay_admin Scenario.store
                (after (initiateTransaction (enter Scenario.pay_admin Scenario.store))))
      as (receiver & Hr & _ & Hfirst & _).
    + vm_compute. reflexivity.
    + injection Hr as <-. destruct Hfirst as (a & rest & Hown & Hto & _);
        [reflexivity|].
      injection Hown as <- _. exact Hto.
Defined.

(** C3 (as stated) fails for the persisted transaction: after a successful
    initiation of alice's payment to bob the object passed to the call has
    [to] set to bob's preferred account, and the record of that transaction
    in the store still has no [to]. *)
Lemma initiate_destination_not_persisted_counterexample :
  let r := initiateTransaction (enter Scenario.pay Scenario.store) in
  outcome r = Normal ok_200 /\
  tx_to (this_tx (after r)) = Some (ById "a2") /\
  option_map tx_to (storedTransaction (db (after r)) (transaction_id Scenario.pay))
  = Some None /\
  option_map tx_to (storedTransaction (db (after r)) (transaction_id Scenario.pay))
  <> Some (tx_to (this_tx (after r))).
Proof. vm_compute. repeat split; discriminate. Qed.

(** ** C4: the effect of a completion *)

Lemma complete_ok_inv (w w' : World) :
  completeTransaction w = (Normal ok_200, w') ->
  let t := this_tx w in
  exists r to clr s1,
    tx_to t = Some r /\
    resolve (db w) r = Some to /\
    clearingAccount (db w) = Some clr /\
    store_update Accounts (account_id clr)
                 (SetBalance (balance clr - amount t)) (db w) = Some s1 /\
    store_update Accounts (account_id to)
                 (SetBalance (balance to + amount t)) s1 = Some (db w') /\
    this_tx w' = t.
Proof.
  intros H. pose proof (complete_cases w) as C. cbv zeta in *.
  split_cases C; rewrite C in H; try discriminate H.
  injection H as <-.
  do 4 eexists. repeat (split; [first [eassumption | reflexivity]|]). reflexivity.
Qed.

(** Once the resolution steps pass, both writes are issued. *)
Lemma complete_resolved_writes (w : World) (r : Ref Account) (to clr : Account) :
  tx_to (this_tx w) = Some r ->
  resolve (db w) r = Some to ->
  clearingAccount (db w) = Some clr ->
  writes (log (after (completeTransaction w))) =
  writes (log w) ++
  [EvUpdate Accounts (account_id clr) (SetBalance (balance clr - amount (this_tx w)));
   EvUpdate Accounts (account_id to) (SetBalance (balance to + amount (this_tx w)))].
Proof.
  intros Ht Hr Hc. pose proof (complete_cases w) as C. cbv zeta in C.
  rewrite Ht, Hr, Hc in C.
  pose proof (clearingAccount_stored _ _ Hc) as Hcs.
  assert (Hu : clearingUser (db w) <> None).
  { unfold clearingAccount in Hc. destruct (clearingUser (db w)); discriminate. }
  destruct (clearingUser (db w)); [|contradiction].
  rewrite (store_update_balance (account_id clr)) in C.
  destruct (balanceOf (db w) (account_id clr)); [|contradiction].
  split_cases C; rewrite C; cbn [after snd log];
    rewrite !writes_app, !writes_resolve_events; reflexivity.
Qed.

(** With a stored destination the completion returns 200. *)
Lemma complete_resolved_ok (w : World) (r : Ref Account) (to clr : Account) :
  tx_to (this_tx w) = Some r ->
  resolve (db w) r = Some to ->
  clearingAccount (db w) = Some clr ->
  balanceOf (db w) (account_id to) <> None ->
  exists w', completeTransaction w = (Normal ok_200, w').
Proof.
  intros Ht Hr Hc Hto. pose proof (complete_cases w) as C. cbv zeta in C.
  rewrite Ht, Hr, Hc in C.
  pose proof (clearingAccount_stored _ _ Hc) as Hcs.
  assert (Hu : clearingUser (db w) <> None).
  { unfold clearingAccount in Hc. destruct (clearingUser (db w)); discriminate. }
  destruct (clearingUser (db w)); [|contradiction].
  destruct (store_update Accounts (account_id clr) _ (db w)) as [s1|] eqn:U1.
  - pose proof (update_balance_stored _ _ _ _ U1 _ Hto) as Hto1.
    rewrite (store_update_balance (account_id to)) in C.
    destruct (balanceOf s1 (account_id to)); [|contradiction].
    eexists. exact C.
  - rewrite store_update_balance in U1.
    destruct (balanceOf (db w) (account_id clr)); [discriminate|contradiction].
Qed.

(** C4 (as amended).  When the resolution steps of [completeTransaction]
    pass, exactly two writes are issued, both to accounts and in this order:
    the clearing account gets its balance as read minus the amount, then the
    destination gets its balance as resolved plus the amount.  When the
    destination is a stored account the call returns 200; afterwards the
    destination holds its resolved balance plus the amount, every account
    other than these two keeps its balance, and, when the destination is not
    the clearing account itself, the clearing account holds its former
    balance minus the amount.  A destination given by id is resolved to its
    stored balance. *)
Theorem complete_effect (t : Transaction) (s : Store)
        (r : Ref Account) (to clr : Account) :
  tx_to t = Some r ->
  resolve s r = Some to ->
  clearingAccount s = Some clr ->
  let res := completeTransaction (enter t s) in
  writes (log (after res)) =
    [EvUpdate Accounts (account_id clr) (SetBalance (balance clr - amount t));
     EvUpdate Accounts (account_id to) (SetBalance (balance to + amount t))] /\
  (balanceOf s (account_id to) <> None ->
   outcome res = Normal ok_200 /\
   balanceOf (db (after res)) (account_id to) = Some (balance to + amount t) /\
   (account_id to <> account_id clr ->
    balanceOf (db (after res)) (account_id clr) = Some (balance clr - amount t)) /\
   (forall id, id <> account_id clr -> id <> account_id to ->
               balanceOf (db (after res)) id = balanceOf s id)) /\
  (forall id, r = ById id -> balanceOf s (account_id to) = Some (balance to)).
Proof.
  intros Ht Hr Hc res. subst res. split; [|split].
  - rewrite (complete_resolved_writes (enter t s) r to clr Ht Hr Hc). reflexivity.
  - intros Hto.
    destruct (complete_resolved_ok (enter t s) r to clr Ht Hr Hc Hto) as [w' E].
    rewrite E. cbn [outcome fst after snd].
    apply complete_ok_inv in E. cbn [enter db this_tx log] in E.
    destruct E as (r' & to' & clr' & s1 & Ht' & Hr' & Hc' & U1 & U2 & _).
    assert (r' = r) by congruence. subst r'.
    assert (to' = to) by congruence. subst to'.
    assert (clr' = clr) by congruence. subst clr'.
    repeat split.
    + apply (update_balance_same _ _ _ _ U2).
    + intros Hne. rewrite (update_balance_other _ _ _ _ U2) by congruence.
      apply (update_balance_same _ _ _ _ U1).
    + intros id H1 H2. rewrite (update_balance_other _ _ _ _ U2) by assumption.
      apply (update_balance_other _ _ _ _ U1). assumption.
  - intros id ->. eapply resolve_by_id_in_sync; eassumption.
Qed.

Lemma complete_effect_witness :
  let res := completeTransaction (enter Scenario.large_completion Scenario.store) in
  outcome res = Normal ok_200 /\
  balanceOf (db (after res)) "a2" = Some (250 + 800) /\
  balanceOf (db (after res)) "a0" = Some (500 - 800).
Proof.
  cbv zeta.
  destruct (complete_effect Scenario.large_completion Scenario.store
              (ById "a2") Scenario.bob_account Scenario.clearing)
    as (_ & H & _); [reflexivity | reflexivity | reflexivity |].
  destruct H as (Hok & Hto & Hclr & _); [discriminate|].
  split; [exact Hok|]. split; [exact Hto|]. apply Hclr. discriminate.
Defined.

(** C4 (as stated) fails when the destination is the clearing account: a
    transfer of 100 into the clearing account, which holds 500, passes the
    resolution steps and returns 200, and the clearing account ends at 600,
    not at 400. *)
Lemma complete_into_clearing_counterexample :
  let res := completeTransaction (enter Scenario.into_clearing Scenario.store) in
  outcome res = Normal ok_200 /\
  tx_to Scenario.into_clearing = Some (ById (account_id Scenario.clearing)) /\
  clearingAccount Scenario.store = Some Scenario.clearing /\
  balance Scenario.clearing = 500 /\
  amount Scenario.into_clearing = 100 /\
  balanceOf (db (after res)) (account_id Scenario.clearing) = Some 600 /\
  balanceOf (db (after res)) (account_id Scenario.clearing)
  <> Some (balance Scenario.clearing - amount Scenario.into_clearing).
Proof. vm_compute. repeat split; discriminate. Qed.

(** ** C5: initiation followed by completion *)

(** What the two calls write, as the source computes it: no law of
    arithmetic is used.  The clearing account ends at its former balance
    plus the amount, minus the amount. *)
Lemma initiate_then_complete_effect
      (t : Transaction) (s : Store) (w1 : World)
      (from clr dest : Account) (r : Ref Account) :
  initiateTransaction (enter t s) = (Normal ok_200, w1) ->
  resolve s (tx_from t) = Some from ->
  clearingAccount s = Some clr ->
  tx_to (this_tx w1) = Some r ->
  resolve s r = Some dest ->
  account_id from <> account_id clr ->
  account_id dest <> account_id clr ->
  account_id dest <> account_id from ->
  balanceOf s (account_id dest) = Some (balance dest) ->
  exists w2,
    completeTransaction w1 = (Normal ok_200, w2) /\
    balanceOf (db w2) (account_id from) = Some (balance from - amount t) /\
    balanceOf (db w2) (account_id dest) = Some (balance dest + amount t) /\
    balanceOf (db w2) (account_id clr) = Some (balance clr + amount t - amount t) /\
    (forall id, id <> account_id from -> id <> account_id dest ->
                id <> account_id clr -> balanceOf (db w2) id = balanceOf s id).
Proof.
  intros H Hf Hc Hto Hd Hfc Hdc Hdf Sd.
  apply initiate_ok_inv in H. cbn [enter db this_tx log] in H.
  destruct H as (from' & receiver & clr' & s1 & Hf' & _ & _ & Hc' & U1 & U2 & Htx & _).
  assert (from' = from) by congruence. subst from'.
  assert (clr' = clr) by congruence. subst clr'.
  assert (Hamt : amount (this_tx w1) = amount t) by (rewrite Htx; reflexivity).
  set (clr1 := with_balance (balance clr + amount t) clr).
  assert (Hc1 : clearingAccount (db w1) = Some clr1).
  { rewrite (update_balance_clearingAccount _ _ _ _ U2),
            (update_balance_clearingAccount _ _ _ _ U1), Hc.
    cbn [option_map]. rewrite set_balance_if_same.
    rewrite set_balance_if_other by (cbn; congruence). reflexivity. }
  assert (Hd1 : resolve (db w1) r = Some dest).
  { destruct r as [id|d]; [|exact Hd]. cbn [resolve] in *.
    rewrite (update_balance_lookup _ _ _ _ U2), (update_balance_lookup _ _ _ _ U1), Hd.
    cbn [option_map].
    rewrite (set_balance_if_other (account_id clr)) by assumption.
    rewrite (set_balance_if_other (account_id from)) by assumption.
    reflexivity. }
  assert (Hst : balanceOf (db w1) (account_id dest) <> None).
  { apply (update_balance_stored _ _ _ _ U2), (update_balance_stored _ _ _ _ U1).
    congruence. }
  destruct (complete_resolved_ok w1 r dest clr1 Hto Hd1 Hc1 Hst) as [w2 E].
  exists w2. split; [exact E|].
  apply complete_ok_inv in E. cbv zeta in E.
  destruct E as (r' & dest' & clr' & s3 & Ht' & Hr' & Hc'' & U3 & U4 & _).
  assert (r' = r) by congruence. subst r'.
  assert (dest' = dest) by congruence. subst dest'.
  assert (clr' = clr1) by congruence. subst clr'.
  rewrite Hamt in U3, U4. subst clr1. cbn [with_balance account_id balance] in U3.
  repeat split.
  - rewrite (update_balance_other _ _ _ _ U4) by congruence.
    rewrite (update_balance_other _ _ _ _ U3) by congruence.
    apply (update_balance_same _ _ _ _ U2).
  - apply (update_balance_same _ _ _ _ U4).
  - rewrite (update_balance_other _ _ _ _ U4) by congruence.
    apply (update_balance_same _ _ _ _ U3).
  - intros id H1 H2 H3.
    rewrite (update_balance_other _ _ _ _ U4) by assumption.
    rewrite (update_balance_other _ _ _ _ U3) by assumption.
    rewrite (update_balance_other _ _ _ _ U2) by assumption.
    apply (update_balance_other _ _ _ _ U1). assumption.
Qed.

(** C5 (as amended).  Let [initiateTransaction] return 200 and let
    [completeTransaction] then be called on the same transaction object, with
    nothing in between.  Let the source, the chosen destination and the
    clearing account be three different accounts, let each of the three
    resolved records carry the stored balance of its id (as it does for a
    reference by id on a store with unique ids), and let the amount, the
    three balances and the three results the calls compute (source minus
    amount, destination plus amount, clearing plus amount) be integers of
    magnitude below 2^53, where the arithmetic of the source is exact.  Then
    the completion returns 200 and, compared with the store before the
    initiation, the source balance is lower by the amount, the destination
    balance is higher by the amount, the clearing balance is what it was,
    and no other balance changed. *)
Theorem initiate_then_complete_conserves
        (t : Transaction) (s : Store) (w1 : World)
        (from clr dest : Account) (r : Ref Account) :
  initiateTransaction (enter t s) = (Normal ok_200, w1) ->
  resolve s (tx_from t) = Some from ->
  clearingAccount s = Some clr ->
  tx_to (this_tx w1) = Some r ->
  resolve s r = Some dest ->
  account_id from <> account_id clr ->
  account_id dest <> account_id clr ->
  account_id dest <> account_id from ->
  balanceOf s (account_id from) = Some (balance from) ->
  balanceOf s (account_id dest) = Some (balance dest) ->
  balanceOf s (account_id clr) = Some (balance clr) ->
  js_safe_integer (amount t) ->
  js_safe_integer (balance from) ->
  js_safe_integer (balance dest) ->
  js_safe_integer (balance clr) ->
  js_safe_integer (balance from - amount t) ->
  js_safe_integer (balance dest + amount t) ->
  js_safe_integer (balance clr + amount t) ->
  exists w2,
    completeTransaction w1 = (Normal ok_200, w2) /\
    balanceOf (db w2) (account_id from) = Some (balance from - amount t) /\
    balanceOf (db w2) (account_id dest) = Some (balance dest + amount t) /\
    balanceOf (db w2) (account_id clr) = Some (balance clr) /\
    (forall id, id <> account_id from -> id <> account_id dest ->
                id <> account_id clr -> balanceOf (db w2) id = balanceOf s id).
Proof.
  intros H Hf Hc Hto Hd Hfc Hdc Hdf Sf Sd Sc Ja Jf Jd Jc Jf' Jd' Jc'.
  destruct (initiate_then_complete_effect t s w1 from clr dest r
              H Hf Hc Hto Hd Hfc Hdc Hdf Sd)
    as (w2 & E & Bf & Bd & Bc & Hframe).
  exists w2. split; [exact E|]. split; [exact Bf|]. split; [exact Bd|].
  split; [|exact Hframe].
  rewrite Bc. f_equal. lia.
Qed.

Lemma initiate_then_complete_conserves_witness :
  exists w2,
    completeTransaction (after (initiateTransaction (enter Scenario.pay Scenario.store)))
    = (Normal ok_200, w2) /\
    balanceOf (db w2) "a1" = Some (1000 - 400) /\
    balanceOf (db w2) "a2" = Some (250 + 400) /\
    balanceOf (db w2) "a0" = Some 500.
Proof.
  destruct (initiate_then_complete_conserves Scenario.pay Scenario.store
              (after (initiateTransaction (enter Scenario.pay Scenario.store)))
              Scenario.alice_account Scenario.clearing Scenario.bob_account
              (ById "a2"))
    as (w2 & E & Hf & Hd & Hc & _);
    try reflexivity; try discriminate;
    try (unfold js_safe_integer; cbn; lia).
  exists w2. repeat split; assumption.
Defined.

(** C5 (as stated) fails when the receiver is the clearing user: alice pays
    the admin 400.  The destination chosen by the initiation is the clearing
    account, which held 500; both calls return 200 and the clearing account
    ends at 900, not at 500. *)
Lemma initiate_then_complete_to_admin_counterexample :
  let r1 := initiateTransaction (enter Scenario.pay_admin Scenario.store) in
  let r2 := completeTransaction (after r1) in
  outcome r1 = Normal ok_200 /\
  outcome r2 = Normal ok_200 /\
  clearingAccount Scenario.store = Some Scenario.clearing /\
  balanceOf Scenario.store (account_id Scenario.clearing) = Some 500 /\
  balanceOf (db (after r2)) (account_id Scenario.clearing) = Some 900 /\
  balanceOf (db (after r2)) (account_id Scenario.clearing)
  <> balanceOf Scenario.store (account_id Scenario.clearing).
Proof. vm_compute. repeat split; discriminate. Qed.

(** ** C6: lookup failures *)

Lemma clearingAccount_None_iff (s : Store) :
  clearingAccount s = None <->
  (clearingUser s = None \/
   exists u, clearingUser s = Some u /\ accountsOwnedBy s u = []).
Proof.
  unfold clearingAccount, accountsOwnedBy.
  destruct (clearingUser s) as [u|].
  - destruct (select s (OwnerEquals (user_id u))) as [|a l] eqn:E; cbn [hd_error].
    + split; [intros _; right; exists u; split; [reflexivity|exact E] | reflexivity].
    + split; [discriminate|].
      intros [H|(u' & H1 & H2)]; [discriminate|].
      injection H1 as <-. rewrite E in H2. discriminate.
  - split; [intros _; left; reflexivity | reflexivity].
Qed.

(** C6.  Whenever a lookup of [initiateTransaction] or of
    [completeTransaction] fails (the source account, the receiver or the
    destination account is not found, or the clearing user or the clearing
    account is missing when the call comes to resolve it), the call throws,
    and at that point the store is the one the call started from and no
    write has been issued; in particular no balance has changed. *)
Theorem lookup_failure_aborts_before_mutation (t : Transaction) (s : Store) :
  (initiate_lookup_fails t s = true ->
   aborted_before_mutation (initiateTransaction (enter t s)) s /\
   forall id, balanceOf (db (after (initiateTransaction (enter t s)))) id
              = balanceOf s id) /\
  (complete_lookup_fails t s = true ->
   aborted_before_mutation (completeTransaction (enter t s)) s /\
   forall id, balanceOf (db (after (completeTransaction (enter t s)))) id
              = balanceOf s id).
Proof.
  assert (Hdb : forall A (r : Completion A * World),
             aborted_before_mutation r s ->
             aborted_before_mutation r s /\
             forall id, balanceOf (db (after r)) id = balanceOf s id).
  { intros A r H. split; [exact H|]. destruct H as (_ & -> & _). reflexivity. }
  split; intros Hfail; apply Hdb; unfold aborted_before_mutation.
  - unfold initiate_lookup_fails in Hfail.
    pose proof (initiate_cases (enter t s)) as C. cbv zeta in C.
    cbn [enter db this_tx log] in C.
    destruct (resolve s (tx_from t)) as [from|].
    2:{ rewrite C. cbn [outcome after fst snd append_log enter db log app].
        rewrite writes_resolve_events. eauto. }
    destruct (resolve s (tx_receiver t)) as [receiver|].
    2:{ rewrite C. cbn [outcome after fst snd append_log enter db log app].
        rewrite writes_app, !writes_resolve_events. eauto. }
    destruct (rejection_test from t (accountsOwnedBy s receiver));
      [discriminate Hfail|].
    cbn [negb andb] in Hfail.
    destruct (clearingAccount s) as [clr|]; [discriminate Hfail|].
    destruct (clearingUser s) as [u|]; rewrite C;
      cbn [outcome after fst snd append_log enter db log app];
      rewrite !writes_app, !writes_resolve_events; eauto.
  - unfold complete_lookup_fails in Hfail.
    pose proof (complete_cases (enter t s)) as C. cbv zeta in C.
    cbn [enter db this_tx log] in C.
    destruct (tx_to t) as [r|].
    2:{ rewrite C. cbn. eauto. }
    destruct (resolve s r) as [to|].
    2:{ rewrite C. cbn [outcome after fst snd append_log enter db log app].
        rewrite writes_resolve_events. eauto. }
    cbn [is_none orb] in Hfail.
    destruct (clearingAccount s) as [clr|]; [discriminate Hfail|].
    destruct (clearingUser s) as [u|]; rewrite C;
      cbn [outcome after fst snd append_log enter db log app];
      rewrite !writes_app, !writes_resolve_events; eauto.
Qed.

Lemma lookup_failure_aborts_before_mutation_witness :
  aborted_before_mutation
    (initiateTransaction (enter Scenario.dangling Scenario.store)) Scenario.store
  /\ aborted_before_mutation
       (initiateTransaction (enter Scenario.pay Scenario.store_without_clearing))
       Scenario.store_without_clearing
  /\ aborted_before_mutation
       (completeTransaction (enter Scenario.pay Scenario.store)) Scenario.store
  /\ aborted_before_mutation
       (completeTransaction (enter Scenario.large_completion
                                   Scenario.store_without_clearing))
       Scenario.store_without_clearing.
Proof.
  split; [|split; [|split]].
  - exact (proj1 (proj1 (lookup_failure_aborts_before_mutation
                           Scenario.dangling Scenario.store) eq_refl)).
  - exact (proj1 (proj1 (lookup_failure_aborts_before_mutation
                           Scenario.pay Scenario.store_without_clearing) eq_refl)).
  - exact (proj1 (proj2 (lookup_failure_aborts_before_mutation
                           Scenario.pay Scenario.store) eq_refl)).
  - exact (proj1 (proj2 (lookup_failure_aborts_before_mutation
                           Scenario.large_completion
                           Scenario.store_without_clearing) eq_refl)).
Defined.

(** ** C7: balances below zero *)

Lemma clearingAccount_In (s : Store) (clr : Account) :
  clearingAccount s = Some clr -> In clr (accounts s).
Proof.
  unfold clearingAccount. destruct (clearingUser s) as [u|]; [|discriminate].
  unfold select. cbn [docs Document_Account]. intros H.
  destruct (filter (matches (OwnerEquals (user_id u))) (accounts s)) as [|a l] eqn:Hf;
    [discriminate|].
  injection H as ->.
  assert (Hin : In clr (filter (matches (OwnerEquals (user_id u))) (accounts s)))
    by (rewrite Hf; left; reflexivity).
  apply filter_In in Hin. tauto.
Qed.

Lemma update_balance_nonnegative (id : Id) (b : Z) (s s' : Store) :
  store_update Accounts id (SetBalance b) s = Some s' ->
  0 <= b ->
  all_balances_nonnegative s -> all_balances_nonnegative s'.
Proof.
  intros U Hb Hs a Hin. rewrite (update_balance_accounts _ _ _ _ U) in Hin.
  apply in_map_iff in Hin. destruct Hin as (a0 & <- & Hin0).
  unfold set_balance_if. destruct (String.eqb id (account_id a0)).
  - exact Hb.
  - apply Hs, Hin0.
Qed.

Lemma update_status_nonnegative (id : Id) (st : Status) (s s' : Store) :
  store_update Transactions id (SetStatus st) s = Some s' ->
  all_balances_nonnegative s -> all_balances_nonnegative s'.
Proof.
  intros U Hs a Hin. apply update_status_stored in U.
  destruct U as (_ & _ & Hacc & _). rewrite Hacc in Hin. apply Hs, Hin.
Qed.

(** C7.  Initiation keeps balances at or above zero, completion does not.
    (1) When [initiateTransaction] returns 200 the source account holds a
    balance that is not negative, whatever it held before.  (2) For an
    amount that is not negative, an initiation on a store without negative
    balances leaves a store without negative balances, whatever the outcome
    of the call.  (3) [completeTransaction] debits the clearing account
    without any test: there is a store without negative balances and a
    transaction of positive amount on which it returns 200 and leaves the
    clearing balance below zero. *)
Theorem settlement_balance_floor :
  (forall t s w' from,
      initiateTransaction (enter t s) = (Normal ok_200, w') ->
      resolve s (tx_from t) = Some from ->
      exists b, balanceOf (db w') (account_id from) = Some b /\ 0 <= b) /\
  (forall t s,
      0 <= amount t ->
      all_balances_nonnegative s ->
      all_balances_nonnegative (db (after (initiateTransaction (enter t s))))) /\
  (exists t s clr b,
      all_balances_nonnegative s /\
      0 < amount t /\
      clearingAccount s = Some clr /\
      outcome (completeTransaction (enter t s)) = Normal ok_200 /\
      balanceOf (db (after (completeTransaction (enter t s)))) (account_id clr)
      = Some b /\
      b < 0).
Proof.
  split; [|split].
  - intros t s w' from H Hf.
    apply initiate_ok_inv in H. cbn [enter db this_tx log] in H.
    destruct H as (from' & receiver & clr & s1 & Hf' & _ & Hrej & _ & _ & U2 & _).
    assert (from' = from) by congruence. subst from'.
    exists (balance from - amount t). split.
    + apply (update_balance_same _ _ _ _ U2).
    + apply rejection_test_false_iff in Hrej. lia.
  - intros t s Ha Hs.
    pose proof (initiate_cases (enter t s)) as C. cbv zeta in C.
    cbn [enter db this_tx log] in C.
    destruct (resolve s (tx_from t)) as [from|]; [|rewrite C; exact Hs].
    destruct (resolve s (tx_receiver t)) as [receiver|]; [|rewrite C; exact Hs].
    destruct (rejection_test from t (accountsOwnedBy s receiver)) eqn:Hrej.
    { destruct (store_update Transactions _ _ s) eqn:U; rewrite C; cbn [after snd db].
      - eapply update_status_nonnegative; eassumption.
      - exact Hs. }
    apply rejection_test_false_iff in Hrej.
    destruct (clearingUser s) as [u|]; [|rewrite C; exact Hs].
    destruct (clearingAccount s) as [clr|] eqn:Hc; [|rewrite C; exact Hs].
    pose proof (Hs clr (clearingAccount_In _ _ Hc)) as Hclr.
    destruct (store_update Accounts (account_id clr) _ s) as [s1|] eqn:U1;
      [|rewrite C; exact Hs].
    assert (Hs1 : all_balances_nonnegative s1).
    { eapply update_balance_nonnegative; [exact U1 | lia | exact Hs]. }
    destruct (store_update Accounts (account_id from) _ s1) as [s2|] eqn:U2;
      rewrite C; cbn [after snd db]; [|exact Hs1].
    eapply update_balance_nonnegative; [exact U2 | lia | exact Hs1].
  - exists Scenario.large_completion, Scenario.store, Scenario.clearing, (-300).
    split.
    + intros a [<-|[<-|[<-|[]]]]; cbn; lia.
    + vm_compute. repeat split; reflexivity.
Qed.

Lemma settlement_balance_floor_witness :
  (exists b,
      balanceOf (db (after (initiateTransaction
                              (enter Scenario.pay_all Scenario.store))))
                (account_id Scenario.bob_account) = Some b /\ 0 <= b)
  /\ all_balances_nonnegative
       (db (after (initiateTransaction (enter Scenario.pay Scenario.store)))).
Proof.
  split.
  - apply (proj1 settlement_balance_floor Scenario.pay_all Scenario.store
                 (after (initiateTransaction (enter Scenario.pay_all Scenario.store)))
                 Scenario.bob_account).
    + vm_compute. reflexivity.
    + reflexivity.
  - apply (proj1 (proj2 settlement_balance_floor) Scenario.pay Scenario.store).
    + cbn. lia.
    + intros a [<-|[<-|[<-|[]]]]; cbn; lia.
Defined.

(** ** C8: initiating twice *)

Lemma set_balance_if_hit (id : Id) (b : Z) (a : Account) :
  account_id a = id -> set_balance_if id b a = with_balance b a.
Proof. intros <-. apply set_balance_if_same. Qed.

(** What two initiations in a row write, as the source computes it: no
    law of arithmetic is used. *)
Lemma initiate_twice_effect
      (t : Transaction) (s : Store) (w1 w2 : World) (id : Id) :
  tx_from t = ById id ->
  initiateTransaction (enter t s) = (Normal ok_200, w1) ->
  initiateTransaction w1 = (Normal ok_200, w2) ->
  exists from clr,
    resolve s (tx_from t) = Some from /\
    clearingAccount s = Some clr /\
    account_id from = id /\
    balanceOf s id = Some (balance from) /\
    balanceOf (db w2) id = Some (balance from - amount t - amount t) /\
    (id <> account_id clr ->
     balanceOf (db w2) (account_id clr) = Some (balance clr + amount t + amount t)) /\
    List.length (writes (log w2)) = 4%nat.
Proof.
  intros Hby H1 H2.
  apply initiate_ok_inv in H1. cbn [enter db this_tx log] in H1.
  destruct H1 as (from & receiver & clr & s1 & Hf & _ & _ & Hc & U1 & U2 & Htx & Hw1).
  apply initiate_ok_inv in H2. cbv zeta in H2.
  destruct H2 as (from2 & receiver2 & clr2 & s3 & Hf2 & _ & _ & Hc2 & U3 & U4 & _ & Hw2).
  assert (Hamt : amount (this_tx w1) = amount t) by (rewrite Htx; reflexivity).
  assert (Hfrom1 : tx_from (this_tx w1) = ById id) by (rewrite Htx; exact Hby).
  rewrite Hamt in *. rewrite Hfrom1 in Hf2. rewrite Hby in Hf.
  cbn [resolve] in Hf, Hf2.
  pose proof (lookup_account_id _ _ _ Hf) as Hid.
  rewrite (update_balance_lookup _ _ _ _ U2), (update_balance_lookup _ _ _ _ U1), Hf
    in Hf2.
  cbn [option_map] in Hf2.
  rewrite (set_balance_if_hit (account_id from)) in Hf2
    by (rewrite set_balance_if_id; reflexivity).
  injection Hf2 as <-.
  cbn [with_balance account_id balance] in U4.
  rewrite set_balance_if_id in U4.
  exists from, clr. rewrite Hby. cbn [resolve].
  repeat split; try assumption.
  - unfold balanceOf. rewrite Hf. reflexivity.
  - rewrite <- Hid. apply (update_balance_same _ _ _ _ U4).
  - intros Hne.
    rewrite (update_balance_clearingAccount _ _ _ _ U2),
            (update_balance_clearingAccount _ _ _ _ U1), Hc in Hc2.
    cbn [option_map] in Hc2. rewrite set_balance_if_same in Hc2.
    rewrite set_balance_if_other in Hc2 by (cbn; congruence).
    injection Hc2 as <-. cbn [with_balance account_id balance] in U3.
    rewrite (update_balance_other _ _ _ _ U4) by congruence.
    apply (update_balance_same _ _ _ _ U3).
  - rewrite Hw2, Hw1. reflexivity.
Qed.

(** C8 (as amended).  [initiateTransaction] is not idempotent.  Let the
    transaction name its source by id, so that each call reads the source
    from the store, and let two calls in sequence on the same transaction
    object both return 200.  Then four balance writes are issued.  When the
    amount, the source balance and the two results computed from it (the
    balance minus the amount, and minus twice the amount) are integers of
    magnitude below 2^53, where the arithmetic of the source is exact, the
    source account ends lower by twice the amount than its stored balance
    before the first call; and when the source is not the clearing account
    and the clearing balance and its two results are in that range as well,
    the clearing account ends higher by twice the amount. *)
Theorem initiate_twice_debits_twice
        (t : Transaction) (s : Store) (w1 w2 : World) (id : Id)
        (from clr : Account) :
  tx_from t = ById id ->
  initiateTransaction (enter t s) = (Normal ok_200, w1) ->
  initiateTransaction w1 = (Normal ok_200, w2) ->
  resolve s (tx_from t) = Some from ->
  clearingAccount s = Some clr ->
  js_safe_integer (amount t) ->
  js_safe_integer (balance from) ->
  js_safe_integer (balance from - amount t) ->
  js_safe_integer (balance from - 2 * amount t) ->
  account_id from = id /\
  balanceOf s id = Some (balance from) /\
  balanceOf (db w2) id = Some (balance from - 2 * amount t) /\
  (id <> account_id clr ->
   js_safe_integer (balance clr) ->
   js_safe_integer (balance clr + amount t) ->
   js_safe_integer (balance clr + 2 * amount t) ->
   balanceOf (db w2) (account_id clr) = Some (balance clr + 2 * amount t)) /\
  List.length (writes (log w2)) = 4%nat.
Proof.
  intros Hby H1 H2 Hf Hc Ja Jf Jf1 Jf2.
  destruct (initiate_twice_effect t s w1 w2 id Hby H1 H2)
    as (from' & clr' & Hf' & Hc' & Hid & Hsync & Hb & Hclr & Hlen).
  assert (from' = from) by congruence. subst from'.
  assert (clr' = clr) by congruence. subst clr'.
  split; [exact Hid|]. split; [exact Hsync|].
  split; [rewrite Hb; f_equal; lia|].
  split; [|exact Hlen].
  intros Hne _ _ _. rewrite (Hclr Hne). f_equal. lia.
Qed.

Lemma initiate_twice_debits_twice_witness :
  balanceOf (db (after (initiateTransaction
                          (after (initiateTransaction
                                    (enter Scenario.pay Scenario.store))))))
            "a1" = Some (1000 - 2 * 400)
  /\ balanceOf (db (after (initiateTransaction
                             (after (initiateTransaction
                                       (enter Scenario.pay Scenario.store))))))
                "a0" = Some (500 + 2 * 400).
Proof.
  destruct (initiate_twice_debits_twice Scenario.pay Scenario.store
              (after (initiateTransaction (enter Scenario.pay Scenario.store)))
              (after (initiateTransaction
                        (after (initiateTransaction
                                  (enter Scenario.pay Scenario.store)))))
              "a1" Scenario.alice_account Scenario.clearing)
    as (_ & _ & Hb & Hclr & _).
  - reflexivity.
  - vm_compute. reflexivity.
  - vm_compute. reflexivity.
  - reflexivity.
  - reflexivity.
  - unfold js_safe_integer; cbn; lia.
  - unfold js_safe_integer; cbn; lia.
  - unfold js_safe_integer; cbn; lia.
  - unfold js_safe_integer; cbn; lia.
  - split; [exact Hb|].
    apply Hclr; [discriminate | | | ]; unfold js_safe_integer; cbn; lia.
Defined.

(** C8 (as stated) fails when the transaction carries its source as a
    populated record: the second call tests and debits the balance held in
    that record, not the stored one.  alice's account holds 1000 and the
    amount is 400; both calls return 200, the clearing account is credited
    twice, and the source ends at 600, not at 200. *)
Lemma initiate_twice_populated_source_counterexample :
  let r1 := initiateTransaction (enter Scenario.pay_populated Scenario.store) in
  let r2 := initiateTransaction (after r1) in
  outcome r1 = Normal ok_200 /\
  outcome r2 = Normal ok_200 /\
  balanceOf Scenario.store "a1" = Some 1000 /\
  amount Scenario.pay_populated = 400 /\
  balanceOf (db (after r2)) "a1" = Some 600 /\
  balanceOf (db (after r2)) "a1" <> Some (1000 - 2 * 400) /\
  balanceOf (db (after r2)) "a0" = Some (500 + 2 * 400).
Proof. vm_compute. repeat split; discriminate. Qed.

(** ** C9: a rejection never resolves the clearing account *)

Lemma initiate_rejected_run (t : Transaction) (s : Store)
      (from : Account) (receiver : User) :
  resolve s (tx_from t) = Some from ->
  resolve s (tx_receiver t) = Some receiver ->
  storedTransaction s (transaction_id t) <> None ->
  rejection_test from t (accountsOwnedBy s receiver) = true ->
  exists s',
    store_update Transactions (transaction_id t) (SetStatus rejected) s = Some s' /\
    initiateTransaction (enter t s) =
    (Normal rejected_400,
     mkWorld s' t
             (resolve_events (tx_from t) ++ resolve_events (tx_receiver t)
              ++ [EvFind Accounts (OwnerEquals (user_id receiver));
                  EvUpdate Transactions (transaction_id t) (SetStatus rejected)])).
Proof.
  intros Hf Hr Hst Hrej.
  pose proof (initiate_cases (enter t s)) as C. cbv zeta in C.
  cbn [enter db this_tx log] in C. rewrite Hf, Hr, Hrej in C.
  destruct (store_update Transactions (transaction_id t) (SetStatus rejected) s)
    as [s'|] eqn:U.
  - exists s'. split; [reflexivity|]. rewrite C. cbn [app].
    rewrite <- !app_assoc. reflexivity.
  - rewrite store_update_status in U.
    destruct (storedTransaction s (transaction_id t)); [discriminate|contradiction].
Qed.

(** C9.  For a persisted transaction whose source and receiver resolve and
    for which the rejection condition holds, [initiateTransaction] returns
    the rejection response and the persisted status is rejected, whatever
    the store holds about the clearing user and the clearing account.  The
    calls made are the two resolutions, the query for the receiver's accounts
    and the status update: the query for the clearing user is never issued. *)
Theorem rejection_never_resolves_clearing
        (t : Transaction) (s : Store) (from : Account) (receiver : User) :
  resolve s (tx_from t) = Some from ->
  resolve s (tx_receiver t) = Some receiver ->
  storedTransaction s (transaction_id t) <> None ->
  (balance from < amount t \/ accountsOwnedBy s receiver = []) ->
  let r := initiateTransaction (enter t s) in
  outcome r = Normal rejected_400 /\
  option_map tx_status (storedTransaction (db (after r)) (transaction_id t))
  = Some (Some rejected) /\
  log (after r) =
    resolve_events (tx_from t) ++ resolve_events (tx_receiver t)
    ++ [EvFind Accounts (OwnerEquals (user_id receiver));
        EvUpdate Transactions (transaction_id t) (SetStatus rejected)] /\
  ~ In (EvFind Users (EmailEquals admin_email)) (log (after r)).
Proof.
  intros Hf Hr Hst Hcond r. subst r.
  apply rejection_test_true_iff in Hcond.
  destruct (initiate_rejected_run t s from receiver Hf Hr Hst Hcond) as (s' & U & E).
  rewrite E. cbn [outcome after fst snd db log].
  split; [reflexivity|]. split; [|split; [reflexivity|]].
  - apply update_status_stored in U. destruct U as (-> & _).
    destruct (storedTransaction s (transaction_id t)); [reflexivity|contradiction].
  - rewrite !in_app_iff. intros [H|[H|[H|[H|[]]]]]; try discriminate H.
    + destruct (tx_from t); cbn in H; [destruct H as [H|[]]; discriminate H | exact H].
    + destruct (tx_receiver t); cbn in H; [destruct H as [H|[]]; discriminate H | exact H].
Qed.

Lemma rejection_never_resolves_clearing_witness :
  clearingUser Scenario.store_without_clearing = None /\
  outcome (initiateTransaction
             (enter Scenario.overdraw Scenario.store_without_clearing))
  = Normal rejected_400 /\
  outcome (initiateTransaction
             (enter Scenario.to_nobody Scenario.store_without_clearing))
  = Normal rejected_400.
Proof.
  split; [reflexivity|]. split.
  - apply (rejection_never_resolves_clearing
             Scenario.overdraw Scenario.store_without_clearing
             Scenario.bob_account Scenario.alice);
      [reflexivity | reflexivity | discriminate | left; reflexivity].
  - apply (rejection_never_resolves_clearing
             Scenario.to_nobody Scenario.store_without_clearing
             Scenario.alice_account Scenario.gamma);
      [reflexivity | reflexivity | discriminate | right; reflexivity].
Defined.

(** ** C10: completion leaves the transactions collection alone *)

(** C10.  Whatever its outcome, [completeTransaction] leaves the
    transactions collection of the store, and with it every persisted
    transaction record, exactly as it was; it does not assign to the
    transaction object either, nor touch the users.  Every write it issues is
    a balance update of an account, and it issues at most two. *)
Theorem complete_never_writes_transactions (t : Transaction) (s : Store) :
  let r := completeTransaction (enter t s) in
  transactions (db (after r)) = transactions s /\
  (forall id, storedTransaction (db (after r)) id = storedTransaction s id) /\
  this_tx (after r) = t /\
  users (db (after r)) = users s /\
  (forall e, In e (writes (log (after r))) ->
             exists id b, e = EvUpdate Accounts id (SetBalance b)) /\
  (List.length (writes (log (after r))) <= 2)%nat.
Proof.
  cbv zeta.
  assert (Hst : transactions (db (after (completeTransaction (enter t s))))
                = transactions s ->
                forall id, storedTransaction
                             (db (after (completeTransaction (enter t s)))) id
                           = storedTransaction s id).
  { intros E id. unfold storedTransaction. rewrite E. reflexivity. }
  pose proof (complete_cases (enter t s)) as C. cbv zeta in C.
  cbn [enter db this_tx log] in C.
  destruct (tx_to t) as [r|].
  2:{ rewrite C in *. cbn in *. repeat split; auto; intros e []. }
  assert (Hup : forall id b s0 s1,
             store_update Accounts id (SetBalance b) s0 = Some s1 ->
             transactions s1 = transactions s0 /\ users s1 = users s0).
  { intros id b s0 s1 U. split;
      [eapply update_balance_transactions | eapply update_balance_users]; exact U. }
  split_cases C; rewrite C in *; cbn [after snd db this_tx log append_log enter app] in *;
    repeat match goal with
           | U : store_update Accounts _ _ _ = Some _ |- _ =>
               apply Hup in U; destruct U as [? ?]
           end;
    rewrite ?writes_app, ?writes_resolve_events;
    (split; [congruence|]); (split; [apply Hst; congruence|]);
    (split; [reflexivity|]); (split; [congruence|]);
    (split; [|cbn; lia]);
    cbn; intros e He;
    repeat match goal with
           | H : _ \/ _ |- _ => destruct H as [<-|H]
           | H : False |- _ => destruct H
           end; eauto.
Qed.

(** * Further properties of the settlement code *)

(** ** [getInstance] *)

(** X1.  [getInstance] only reads.  It never changes the store or the
    transaction object and never issues a write.  A populated record is
    returned as it is, without any store call, whatever the store holds
    under its id.  For an id it issues exactly one [findByID] and either
    returns a stored document with that id or throws not-found when the
    collection holds no document with that id. *)
Theorem getInstance_only_reads {T} `{Document T} (r : Ref T) (w : World) :
  let res := getInstance r w in
  db (after res) = db w /\
  this_tx (after res) = this_tx w /\
  writes (log (after res)) = writes (log w) /\
  match r with
  | Doc d => res = (Normal d, w)
  | ById id =>
      log (after res) = log w ++ [EvFindByID slug id] /\
      ((exists d, outcome res = Normal d /\ doc_id d = id /\ In d (docs (db w)))
       \/ (outcome res = Thrown (NotFound slug id) /\
           forall d, In d (docs (db w)) -> doc_id d <> id))
  end.
Proof.
  cbv zeta. destruct r as [id|d]; cbn [getInstance].
  - unfold findByID, lookup.
    destruct (find (has_id id) (docs (db w))) as [d|] eqn:E;
      cbn [after snd outcome fst record db this_tx log];
      (split; [reflexivity|]); (split; [reflexivity|]);
      (split; [rewrite writes_app, app_nil_r; reflexivity|]);
      (split; [reflexivity|]).
    + left. exists d. apply find_some in E. destruct E as [Hin Hid].
      unfold has_id in Hid. apply String.eqb_eq in Hid. auto.
    + right. split; [reflexivity|]. intros d Hin Hd.
      apply (find_none _ _ E) in Hin. unfold has_id in Hin.
      rewrite Hd, String.eqb_refl in Hin. discriminate.
  - unfold ret. cbn. auto.
Qed.

(** ** Writes that fail after the first one *)

(** X2.  No rollback in [initiateTransaction].  When the source is a
    populated record whose id the store does not hold, the transfer is not
    rejected and the clearing account resolves, the call credits the clearing
    account and then throws not-found on the source debit: the clearing
    balance stays raised by the amount and no other balance has changed. *)
Theorem initiate_unstored_source_keeps_credit
        (t : Transaction) (s : Store) (from : Account) (receiver : User)
        (clr : Account) :
  resolve s (tx_from t) = Some from ->
  resolve s (tx_receiver t) = Some receiver ->
  amount t <= balance from ->
  accountsOwnedBy s receiver <> [] ->
  clearingAccount s = Some clr ->
  balanceOf s (account_id from) = None ->
  let r := initiateTransaction (enter t s) in
  outcome r = Thrown (NotFound Accounts (account_id from)) /\
  balanceOf (db (after r)) (account_id clr) = Some (balance clr + amount t) /\
  (forall id, id <> account_id clr -> balanceOf (db (after r)) id = balanceOf s id) /\
  writes (log (after r)) =
    [EvUpdate Accounts (account_id clr) (SetBalance (balance clr + amount t));
     EvUpdate Accounts (account_id from) (SetBalance (balance from - amount t))].
Proof.
  intros Hf Hr Ha Hne Hc Hgone r. subst r.
  assert (Hrej : rejection_test from t (accountsOwnedBy s receiver) = false)
    by (apply rejection_test_false_iff; split; assumption).
  pose proof (initiate_cases (enter t s)) as C. cbv zeta in C.
  cbn [enter db this_tx log] in C. rewrite Hf, Hr, Hrej, Hc in C.
  assert (Hu : clearingUser s <> None).
  { unfold clearingAccount in Hc. destruct (clearingUser s); discriminate. }
  destruct (clearingUser s); [|contradiction].
  pose proof (clearingAccount_stored _ _ Hc) as Hcs.
  destruct (store_update Accounts (account_id clr) _ s) as [s1|] eqn:U1.
  2:{ rewrite store_update_balance in U1.
      destruct (balanceOf s (account_id clr)); [discriminate|contradiction]. }
  assert (Hgone1 : balanceOf s1 (account_id from) = None).
  { destruct (String.eqb (account_id from) (account_id clr)) eqn:E.
    - apply String.eqb_eq in E. rewrite E in Hgone. contradiction.
    - apply String.eqb_neq in E.
      rewrite (update_balance_other _ _ _ _ U1) by assumption. exact Hgone. }
  rewrite (store_update_balance (account_id from)), Hgone1 in C.
  rewrite C. cbn [outcome after fst snd db log app].
  split; [reflexivity|]. split; [apply (update_balance_same _ _ _ _ U1)|].
  split; [intros id Hid; apply (update_balance_other _ _ _ _ U1); exact Hid|].
  rewrite !writes_app, !writes_resolve_events. reflexivity.
Qed.

Lemma initiate_unstored_source_keeps_credit_witness :
  let r := initiateTransaction (enter Cases.pay_from_ghost Scenario.store) in
  outcome r = Thrown (NotFound Accounts "a7") /\
  balanceOf (db (after r)) "a0" = Some (500 + 400).
Proof.
  cbv zeta.
  destruct (initiate_unstored_source_keeps_credit
              Cases.pay_from_ghost Scenario.store Cases.ghost_account
              Scenario.bob Scenario.clearing)
    as (Ho & Hb & _);
    [reflexivity | reflexivity | cbn; lia | discriminate | reflexivity
     | reflexivity |].
  split; [exact Ho | exact Hb].
Defined.

(** X3.  No rollback in [completeTransaction].  When the destination is a
    populated record whose id the store does not hold and the clearing
    account resolves, the call debits the clearing account and then throws
    not-found on the destination credit: the clearing balance stays lowered
    by the amount and no other balance has changed. *)
Theorem complete_unstored_destination_keeps_debit
        (t : Transaction) (s : Store) (r : Ref Account) (to clr : Account) :
  tx_to t = Some r ->
  resolve s r = Some to ->
  clearingAccount s = Some clr ->
  balanceOf s (account_id to) = None ->
  let res := completeTransaction (enter t s) in
  outcome res = Thrown (NotFound Accounts (account_id to)) /\
  balanceOf (db (after res)) (account_id clr) = Some (balance clr - amount t) /\
  (forall id, id <> account_id clr ->
              balanceOf (db (after res)) id = balanceOf s id).
Proof.
  intros Ht Hr Hc Hgone res. subst res.
  pose proof (complete_cases (enter t s)) as C. cbv zeta in C.
  cbn [enter db this_tx log] in C. rewrite Ht, Hr, Hc in C.
  assert (Hu : clearingUser s <> None).
  { unfold clearingAccount in Hc. destruct (clearingUser s); discriminate. }
  destruct (clearingUser s); [|contradiction].
  pose proof (clearingAccount_stored _ _ Hc) as Hcs.
  destruct (store_update Accounts (account_id clr) _ s) as [s1|] eqn:U1.
  2:{ rewrite store_update_balance in U1.
      destruct (balanceOf s (account_id clr)); [discriminate|contradiction]. }
  assert (Hgone1 : balanceOf s1 (account_id to) = None).
  { destruct (String.eqb (account_id to) (account_id clr)) eqn:E.
    - apply String.eqb_eq in E. rewrite E in Hgone. contradiction.
    - apply String.eqb_neq in E.
      rewrite (update_balance_other _ _ _ _ U1) by assumption. exact Hgone. }
  rewrite (store_update_balance (account_id to)), Hgone1 in C.
  rewrite C. cbn [outcome after fst snd db].
  split; [reflexivity|]. split; [apply (update_balance_same _ _ _ _ U1)|].
  intros id Hid. apply (update_balance_other _ _ _ _ U1). exact Hid.
Qed.

Lemma complete_unstored_destination_keeps_debit_witness :
  let res := completeTransaction (enter Cases.pay_into_ghost Scenario.store) in
  outcome res = Thrown (NotFound Accounts "a7") /\
  balanceOf (db (after res)) "a0" = Some (500 - 100).
Proof.
  cbv zeta.
  destruct (complete_unstored_destination_keeps_debit
              Cases.pay_into_ghost Scenario.store (Doc Cases.ghost_account)
              Cases.ghost_account Scenario.clearing)
    as (Ho & Hb & _); [reflexivity | reflexivity | reflexivity | reflexivity |].
  split; [exact Ho | exact Hb].
Defined.

(** ** What the two operations leave alone *)

Lemma forget_balances_update (id : Id) (b : Z) (s s' : Store) :
  store_update Accounts id (SetBalance b) s = Some s' ->
  forget_balances (accounts s') = forget_balances (accounts s).
Proof.
  intros U. rewrite (update_balance_accounts _ _ _ _ U).
  unfold forget_balances. rewrite map_map. apply map_ext.
  intros a. unfold set_balance_if.
  destruct (String.eqb id (account_id a)); reflexivity.
Qed.

(** X4.  Whatever their outcome, [initiateTransaction] and
    [completeTransaction] change nothing of the accounts but balances: the
    accounts collection keeps its documents, their order, ids, owners and
    providers; and they leave the users collection as it was. *)
Theorem settlement_changes_only_balances (t : Transaction) (s : Store) :
  let ri := initiateTransaction (enter t s) in
  let rc := completeTransaction (enter t s) in
  (users (db (after ri)) = users s /\
   forget_balances (accounts (db (after ri))) = forget_balances (accounts s)) /\
  (users (db (after rc)) = users s /\
   forget_balances (accounts (db (after rc))) = forget_balances (accounts s)).
Proof.
  cbv zeta. split.
  - pose proof (initiate_cases (enter t s)) as C. cbv zeta in C.
    cbn [enter db this_tx log] in C.
    split_cases C; rewrite C; cbn [after snd db append_log enter];
      repeat match goal with
             | U : store_update Transactions _ _ _ = Some _ |- _ =>
                 apply update_status_stored in U;
                 destruct U as (_ & _ & ? & ?)
             | U : store_update Accounts _ _ _ = Some _ |- _ =>
                 pose proof (update_balance_users _ _ _ _ U);
                 apply forget_balances_update in U
             end;
      split; congruence.
  - pose proof (complete_cases (enter t s)) as C. cbv zeta in C.
    cbn [enter db this_tx log] in C.
    split_cases C; rewrite C; cbn [after snd db append_log enter];
      repeat match goal with
             | U : store_update Accounts _ _ _ = Some _ |- _ =>
                 pose proof (update_balance_users _ _ _ _ U);
                 apply forget_balances_update in U
             end;
      split; congruence.
Qed.

Lemma find_transaction_map_status (id id' : Id) (st : Status) (l : list Transaction) :
  id' <> id ->
  find (fun t => String.eqb id' (transaction_id t))
       (map (fun t => if String.eqb id (transaction_id t)
                      then with_status st t else t) l)
  = find (fun t => String.eqb id' (transaction_id t)) l.
Proof.
  intros Hne. induction l as [|x l IH]; [reflexivity|].
  cbn [map find].
  destruct (String.eqb id (transaction_id x)) eqn:E.
  - cbn [with_status transaction_id].
    apply String.eqb_eq in E.
    assert (E' : String.eqb id' (transaction_id x) = false)
      by (apply String.eqb_neq; congruence).
    rewrite E'. exact IH.
  - destruct (String.eqb id' (transaction_id x)); [reflexivity | exact IH].
Qed.

Lemma update_status_other (id id' : Id) (st : Status) (s s' : Store) :
  store_update Transactions id (SetStatus st) s = Some s' ->
  id' <> id ->
  storedTransaction s' id' = storedTransaction s id'.
Proof.
  rewrite store_update_status.
  destruct (storedTransaction s id); [|discriminate].
  intros H Hne. injection H as <-. unfold storedTransaction. cbn [transactions].
  apply find_transaction_map_status. exact Hne.
Qed.

(** X5.  What [initiateTransaction] does to the persisted transactions.
    Unless it returns the rejection response it leaves the transactions
    collection exactly as it was: it never sets a status on success.  In
    every case the records of all other transactions are unchanged, and the
    record of this transaction keeps its sender, source, receiver,
    destination and amount; its status is either what it was or rejected. *)
Theorem initiate_transactions_frame (t : Transaction) (s : Store) :
  let r := initiateTransaction (enter t s) in
  (outcome r <> Normal rejected_400 ->
   transactions (db (after r)) = transactions s) /\
  (forall id, id <> transaction_id t ->
              storedTransaction (db (after r)) id = storedTransaction s id) /\
  (forall x, storedTransaction (db (after r)) (transaction_id t) = Some x ->
             exists x0,
               storedTransaction s (transaction_id t) = Some x0 /\
               tx_sender x = tx_sender x0 /\ tx_from x = tx_from x0 /\
               tx_receiver x = tx_receiver x0 /\ tx_to x = tx_to x0 /\
               amount x = amount x0 /\
               (tx_status x = tx_status x0 \/ tx_status x = Some rejected)).
Proof.
  cbv zeta.
  assert (Hsame : forall s', transactions s' = transactions s ->
            (forall id, id <> transaction_id t ->
                        storedTransaction s' id = storedTransaction s id) /\
            (forall x, storedTransaction s' (transaction_id t) = Some x ->
                       exists x0,
                         storedTransaction s (transaction_id t) = Some x0 /\
                         tx_sender x = tx_sender x0 /\ tx_from x = tx_from x0 /\
                         tx_receiver x = tx_receiver x0 /\ tx_to x = tx_to x0 /\
                         amount x = amount x0 /\
                         (tx_status x = tx_status x0 \/ tx_status x = Some rejected))).
  { intros s' E. unfold storedTransaction. rewrite E. split; [reflexivity|].
    intros x Hx. exists x. repeat split; auto. }
  pose proof (initiate_cases (enter t s)) as C. cbv zeta in C.
  cbn [enter db this_tx log] in C.
  split_cases C; rewrite C; cbn [outcome fst after snd db append_log enter];
    repeat match goal with
           | U : store_update Accounts _ _ _ = Some _ |- _ =>
               apply update_balance_transactions in U
           end;
    try (split; [intros _; congruence | apply Hsame; congruence]).
  (* the rejection response *)
  split; [intros H; exfalso; apply H; reflexivity|].
  match goal with
  | U : store_update Transactions _ _ _ = Some _ |- _ => rename U into Hup
  end.
  split.
  - intros id Hne. eapply update_status_other; eassumption.
  - intros x Hx. apply update_status_stored in Hup.
    destruct Hup as (Hst & _). rewrite Hst in Hx.
    destruct (storedTransaction s (transaction_id t)) as [x0|]; [|discriminate].
    cbn [option_map] in Hx. injection Hx as <-.
    exists x0. repeat split; auto.
Qed.

(** ** The transaction object *)

Lemma with_to_same (t : Transaction) : with_to (tx_to t) t = t.
Proof. destruct t; reflexivity. Qed.

(** X6.  What [initiateTransaction] does to the object it is given.  It
    changes no field but [to].  When it returns the rejection response the
    object is untouched: the rejected status is written to the store only,
    not to the object.  Once the rejection test has passed, [to] holds the
    chosen destination whatever happens next, also when the call then throws
    because the clearing account is missing or a write fails. *)
Theorem initiate_assigns_only_to (t : Transaction) (s : Store) :
  let r := initiateTransaction (enter t s) in
  this_tx (after r) = with_to (tx_to (this_tx (after r))) t /\
  (outcome r = Normal rejected_400 -> this_tx (after r) = t) /\
  (forall from receiver,
      resolve s (tx_from t) = Some from ->
      resolve s (tx_receiver t) = Some receiver ->
      amount t <= balance from ->
      accountsOwnedBy s receiver <> [] ->
      tx_to (this_tx (after r))
      = chosen_destination receiver (accountsOwnedBy s receiver)).
Proof.
  cbv zeta.
  pose proof (initiate_cases (enter t s)) as C. cbv zeta in C.
  cbn [enter db this_tx log] in C.
  split; [|split].
  - split_cases C; rewrite C; cbn [after snd this_tx append_log enter with_to tx_to];
      try reflexivity; symmetry; apply with_to_same.
  - intros H.
    destruct (initiateTransaction (enter t s)) as [c w'] eqn:E.
    cbn [outcome fst after snd] in *. subst c.
    apply initiate_rejected_inv in E. cbn [enter db this_tx log] in E.
    destruct E as (_ & _ & _ & _ & _ & _ & E & _). exact E.
  - intros from receiver Hf Hr Ha Hne.
    assert (Hrej : rejection_test from t (accountsOwnedBy s receiver) = false)
      by (apply rejection_test_false_iff; split; assumption).
    rewrite Hf, Hr, Hrej in C.
    split_cases C; rewrite C; reflexivity.
Qed.

Lemma initiate_assigns_only_to_witness :
  this_tx (after (initiateTransaction (enter Scenario.overdraw Scenario.store)))
  = Scenario.overdraw
  /\ outcome (initiateTransaction
                (enter Scenario.pay Scenario.store_without_clearing))
     = Thrown (TypeError "id")
  /\ tx_to (this_tx (after (initiateTransaction
                              (enter Scenario.pay Scenario.store_without_clearing))))
     = Some (ById "a2").
Proof.
  split; [|split].
  - apply (proj1 (proj2 (initiate_assigns_only_to Scenario.overdraw Scenario.store))).
    reflexivity.
  - reflexivity.
  - apply (proj2 (proj2 (initiate_assigns_only_to
                           Scenario.pay Scenario.store_without_clearing))
             Scenario.alice_account Scenario.bob);
      [reflexivity | reflexivity | cbn; lia | discriminate].
Defined.

(** ** Calling again *)

Lemma resolve_account_same (s s' : Store) (r : Ref Account) :
  accounts s' = accounts s -> resolve s' r = resolve s r.
Proof.
  intros E. destruct r; [|reflexivity]. cbn [resolve]. unfold lookup.
  cbn [docs Document_Account]. rewrite E. reflexivity.
Qed.

Lemma resolve_user_same (s s' : Store) (r : Ref User) :
  users s' = users s -> resolve s' r = resolve s r.
Proof.
  intros E. destruct r; [|reflexivity]. cbn [resolve]. unfold lookup.
  cbn [docs Document_User]. rewrite E. reflexivity.
Qed.

Lemma update_status_again (id : Id) (st : Status) (s s' : Store) :
  store_update Transactions id (SetStatus st) s = Some s' ->
  store_update Transactions id (SetStatus st) s' = Some s'.
Proof.
  intros U. pose proof (update_status_stored _ _ _ _ U) as (Hst & Hsome & _).
  rewrite store_update_status in U.
  destruct (storedTransaction s id) as [x|] eqn:Hx; [|discriminate].
  injection U as <-.
  rewrite store_update_status, Hst. cbn [option_map users accounts transactions].
  f_equal. f_equal. rewrite map_map. apply map_ext. intros y.
  destruct (String.eqb id (transaction_id y)) eqn:E.
  - cbn [with_status transaction_id]. rewrite E. reflexivity.
  - rewrite E. reflexivity.
Qed.

(** X7.  A rejection is stable.  When [initiateTransaction] has returned
    the rejection response, calling it again on the same transaction object
    returns the rejection response again and leaves the store exactly as the
    first call left it. *)
Theorem initiate_rejection_is_idempotent (t : Transaction) (s : Store) (w1 : World) :
  initiateTransaction (enter t s) = (Normal rejected_400, w1) ->
  exists w2,
    initiateTransaction w1 = (Normal rejected_400, w2) /\
    db w2 = db w1 /\
    this_tx w2 = t.
Proof.
  intros H. apply initiate_rejected_inv in H. cbn [enter db this_tx log] in H.
  destruct H as (from & receiver & Hf & Hr & Hrej & U & Htx & _).
  pose proof (update_status_stored _ _ _ _ U) as (_ & _ & Hacc & Husr).
  pose proof (initiate_cases w1) as C. cbv zeta in C. rewrite Htx in C.
  rewrite (resolve_account_same _ _ _ Hacc), Hf in C.
  rewrite (resolve_user_same _ _ _ Husr), Hr in C.
  assert (Hown : accountsOwnedBy (db w1) receiver = accountsOwnedBy s receiver).
  { unfold accountsOwnedBy, select. cbn [docs Document_Account].
    rewrite Hacc. reflexivity. }
  rewrite Hown, Hrej, (update_status_again _ _ _ _ U) in C.
  eexists. split; [exact C|]. split; reflexivity.
Qed.

Lemma initiate_rejection_is_idempotent_witness :
  exists w2,
    initiateTransaction
      (after (initiateTransaction (enter Scenario.overdraw Scenario.store)))
    = (Normal rejected_400, w2) /\
    db w2 = db (after (initiateTransaction (enter Scenario.overdraw Scenario.store))).
Proof.
  destruct (initiate_rejection_is_idempotent Scenario.overdraw Scenario.store
              (after (initiateTransaction (enter Scenario.overdraw Scenario.store))))
    as (w2 & E & Hdb & _).
  - vm_compute. reflexivity.
  - exists w2. split; assumption.
Defined.

(** What two completions in a row write, as the source computes it: no
    law of arithmetic is used. *)
Lemma complete_twice_effect
      (t : Transaction) (s : Store) (w1 w2 : World) (id : Id) :
  tx_to t = Some (ById id) ->
  completeTransaction (enter t s) = (Normal ok_200, w1) ->
  completeTransaction w1 = (Normal ok_200, w2) ->
  exists to clr,
    lookup s id = Some to /\
    clearingAccount s = Some clr /\
    balanceOf s id = Some (balance to) /\
    balanceOf (db w2) id = Some (balance to + amount t + amount t) /\
    (id <> account_id clr ->
     balanceOf (db w2) (account_id clr) = Some (balance clr - amount t - amount t)).
Proof.
  intros Hto H1 H2.
  apply complete_ok_inv in H1. cbn [enter db this_tx log] in H1.
  destruct H1 as (r & to & clr & s1 & Hr & Hres & Hc & U1 & U2 & Htx).
  apply complete_ok_inv in H2. cbv zeta in H2. rewrite Htx in H2.
  destruct H2 as (r2 & to2 & clr2 & s3 & Hr2 & Hres2 & Hc2 & U3 & U4 & _).
  assert (r = ById id) by congruence. subst r.
  assert (r2 = ById id) by congruence. subst r2.
  cbn [resolve] in Hres, Hres2.
  pose proof (lookup_account_id _ _ _ Hres) as Hid.
  rewrite (update_balance_lookup _ _ _ _ U2), (update_balance_lookup _ _ _ _ U1), Hres
    in Hres2.
  cbn [option_map] in Hres2.
  rewrite (set_balance_if_hit (account_id to)) in Hres2
    by (rewrite set_balance_if_id; reflexivity).
  injection Hres2 as <-.
  cbn [with_balance account_id balance] in U4.
  rewrite set_balance_if_id in U4.
  exists to, clr. repeat split; try assumption.
  - unfold balanceOf. rewrite Hres. reflexivity.
  - rewrite <- Hid. apply (update_balance_same _ _ _ _ U4).
  - intros Hne.
    rewrite (update_balance_clearingAccount _ _ _ _ U2),
            (update_balance_clearingAccount _ _ _ _ U1), Hc in Hc2.
    cbn [option_map] in Hc2. rewrite set_balance_if_same in Hc2.
    rewrite set_balance_if_other in Hc2 by (cbn; congruence).
    injection Hc2 as <-. cbn [with_balance account_id balance] in U3.
    rewrite (update_balance_other _ _ _ _ U4) by congruence.
    apply (update_balance_same _ _ _ _ U3).
Qed.

(** X8.  [completeTransaction] is not idempotent.  Let the destination be
    given by id and let two calls in sequence on the same transaction object
    both return 200.  When the amount, the destination balance and the two
    results computed from it (the balance plus the amount, and plus twice
    the amount) are integers of magnitude below 2^53, where the arithmetic
    of the source is exact, the destination ends higher by twice the amount
    than its stored balance before the first call; and when the destination
    is not the clearing account and the clearing balance and its two results
    are in that range as well, the clearing account ends lower by twice the
    amount. *)
Theorem complete_twice_credits_twice
        (t : Transaction) (s : Store) (w1 w2 : World) (id : Id)
        (to clr : Account) :
  tx_to t = Some (ById id) ->
  completeTransaction (enter t s) = (Normal ok_200, w1) ->
  completeTransaction w1 = (Normal ok_200, w2) ->
  lookup s id = Some to ->
  clearingAccount s = Some clr ->
  js_safe_integer (amount t) ->
  js_safe_integer (balance to) ->
  js_safe_integer (balance to + amount t) ->
  js_safe_integer (balance to + 2 * amount t) ->
  balanceOf s id = Some (balance to) /\
  balanceOf (db w2) id = Some (balance to + 2 * amount t) /\
  (id <> account_id clr ->
   js_safe_integer (balance clr) ->
   js_safe_integer (balance clr - amount t) ->
   js_safe_integer (balance clr - 2 * amount t) ->
   balanceOf (db w2) (account_id clr) = Some (balance clr - 2 * amount t)).
Proof.
  intros Hto H1 H2 Hl Hc Ja Jt Jt1 Jt2.
  destruct (complete_twice_effect t s w1 w2 id Hto H1 H2)
    as (to' & clr' & Hl' & Hc' & Hsync & Hb & Hclr).
  assert (to' = to) by congruence. subst to'.
  assert (clr' = clr) by congruence. subst clr'.
  split; [exact Hsync|].
  split; [rewrite Hb; f_equal; lia|].
  intros Hne _ _ _. rewrite (Hclr Hne). f_equal. lia.
Qed.

Lemma complete_twice_credits_twice_witness :
  balanceOf (db (after (completeTransaction
                          (after (completeTransaction
                                    (enter Cases.pending_transfer Scenario.store))))))
            "a2" = Some (250 + 2 * 100).
Proof.
  destruct (complete_twice_credits_twice Cases.pending_transfer Scenario.store
              (after (completeTransaction
                        (enter Cases.pending_transfer Scenario.store)))
              (after (completeTransaction
                        (after (completeTransaction
                                  (enter Cases.pending_transfer Scenario.store)))))
              "a2" Scenario.bob_account Scenario.clearing)
    as (_ & Hb & _).
  - reflexivity.
  - vm_compute. reflexivity.
  - vm_compute. reflexivity.
  - reflexivity.
  - reflexivity.
  - unfold js_safe_integer; cbn; lia.
  - unfold js_safe_integer; cbn; lia.
  - unfold js_safe_integer; cbn; lia.
  - unfold js_safe_integer; cbn; lia.
  - exact Hb.
Defined.

(** ** What the operations do not look at *)

(** X9.  [completeTransaction] reads only [to] and [amount] of the
    transaction.  Two transactions that agree on these two fields are
    completed in the same way on the same store, whatever their status,
    sender, source and receiver: same outcome, same store calls, same
    resulting store.  In particular a transaction whose status is rejected
    is completed like a pending one. *)
Theorem complete_reads_only_to_and_amount (t t' : Transaction) (s : Store) :
  tx_to t = tx_to t' ->
  amount t = amount t' ->
  outcome (completeTransaction (enter t s)) = outcome (completeTransaction (enter t' s))
  /\ db (after (completeTransaction (enter t s)))
     = db (after (completeTransaction (enter t' s)))
  /\ log (after (completeTransaction (enter t s)))
     = log (after (completeTransaction (enter t' s))).
Proof.
  intros Hto Ha.
  pose proof (complete_cases (enter t s)) as C.
  pose proof (complete_cases (enter t' s)) as C'.
  cbv zeta in C, C'. cbn [enter db this_tx log] in C, C'.
  rewrite <- Hto, <- Ha in C'.
  split_cases C; rewrite C, C'; cbn [outcome fst after snd db log append_log enter];
    repeat split; reflexivity.
Qed.

Lemma complete_reads_only_to_and_amount_witness :
  outcome (completeTransaction (enter Cases.rejected_transfer Scenario.store))
  = Normal ok_200
  /\ balanceOf (db (after (completeTransaction
                             (enter Cases.rejected_transfer Scenario.store)))) "a2"
     = Some (250 + 100).
Proof.
  destruct (complete_reads_only_to_and_amount
              Cases.rejected_transfer Cases.pending_transfer Scenario.store)
    as (Ho & Hdb & _); [reflexivity | reflexivity |].
  rewrite Ho, Hdb. split; reflexivity.
Defined.

(** X10.  [initiateTransaction] reads only the id, [from], [receiver] and
    [amount] of the transaction.  Two transactions that agree on these four
    fields are initiated in the same way on the same store, whatever their
    status, sender and previous [to]: same outcome, same store calls, same
    resulting store.  In particular a transaction that was already accepted
    or rejected is initiated like a fresh one. *)
Theorem initiate_reads_only_four_fields (t t' : Transaction) (s : Store) :
  transaction_id t = transaction_id t' ->
  tx_from t = tx_from t' ->
  tx_receiver t = tx_receiver t' ->
  amount t = amount t' ->
  outcome (initiateTransaction (enter t s)) = outcome (initiateTransaction (enter t' s))
  /\ db (after (initiateTransaction (enter t s)))
     = db (after (initiateTransaction (enter t' s)))
  /\ log (after (initiateTransaction (enter t s)))
     = log (after (initiateTransaction (enter t' s))).
Proof.
  intros Hid Hf Hr Ha.
  pose proof (initiate_cases (enter t s)) as C.
  pose proof (initiate_cases (enter t' s)) as C'.
  cbv zeta in C, C'. cbn [enter db this_tx log] in C, C'.
  rewrite <- Hid, <- Hf, <- Hr in C'.
  unfold rejection_test in C, C'. rewrite <- Ha in C'.
  split_cases C; rewrite C, C';
    cbn [outcome fst after snd db log append_log enter];
    repeat split; reflexivity.
Qed.

Lemma initiate_reads_only_four_fields_witness :
  outcome (initiateTransaction (enter Cases.pay_again Scenario.store)) = Normal ok_200
  /\ balanceOf (db (after (initiateTransaction
                             (enter Cases.pay_again Scenario.store)))) "a1"
     = Some (1000 - 400).
Proof.
  destruct (initiate_reads_only_four_fields
              Scenario.pay Cases.pay_again Scenario.store)
    as (Ho & Hdb & _);
    [reflexivity | reflexivity | reflexivity | reflexivity |].
  rewrite <- Ho, <- Hdb. split; vm_compute; reflexivity.
Defined.

(** ** A destination that does not exist *)

(** X11.  [initiateTransaction] does not check that the chosen destination
    exists.  When it returns 200 with [to] set to an id the store does not
    hold (a receiver whose [preferredAccount] names no stored account), the
    source has been debited, and a following [completeTransaction] throws
    not-found before any write: the store stays as the initiation left
    it. *)
Theorem initiate_dangling_destination_strands_funds
        (t : Transaction) (s : Store) (w1 : World) (id : Id) :
  initiateTransaction (enter t s) = (Normal ok_200, w1) ->
  tx_to (this_tx w1) = Some (ById id) ->
  balanceOf s id = None ->
  let rc := completeTransaction w1 in
  outcome rc = Thrown (NotFound Accounts id) /\
  db (after rc) = db w1 /\
  writes (log (after rc)) = writes (log w1) /\
  exists from,
    resolve s (tx_from t) = Some from /\
    balanceOf (db (after rc)) (account_id from) = Some (balance from - amount t).
Proof.
  intros H Hto Hgone rc. subst rc.
  apply initiate_ok_inv in H. cbn [enter db this_tx log] in H.
  destruct H as (from & receiver & clr & s1 & Hf & _ & _ & _ & U1 & U2 & _ & _).
  assert (Hl : lookup (T := Account) (db w1) id = None).
  { rewrite (update_balance_lookup _ _ _ _ U2), (update_balance_lookup _ _ _ _ U1).
    unfold balanceOf in Hgone.
    destruct (lookup (T := Account) s id); [discriminate|reflexivity]. }
  pose proof (complete_cases w1) as C. cbv zeta in C.
  rewrite Hto in C. cbn [resolve] in C. rewrite Hl in C.
  rewrite C. cbn [outcome fst after snd append_log db log missing_id resolve_events].
  split; [reflexivity|]. split; [reflexivity|].
  split; [rewrite writes_app, app_nil_r; reflexivity|].
  exists from. split; [exact Hf|]. apply (update_balance_same _ _ _ _ U2).
Qed.

Lemma initiate_dangling_destination_strands_funds_witness :
  let r1 := initiateTransaction (enter Cases.pay_carol Cases.store_with_carol) in
  outcome (completeTransaction (after r1)) = Thrown (NotFound Accounts "a8")
  /\ db (after (completeTransaction (after r1))) = db (after r1).
Proof.
  cbv zeta.
  destruct (initiate_dangling_destination_strands_funds
              Cases.pay_carol Cases.store_with_carol
              (after (initiateTransaction
                        (enter Cases.pay_carol Cases.store_with_carol)))
              "a8")
    as (Ho & Hdb & _).
  - vm_compute. reflexivity.
  - vm_compute. reflexivity.
  - reflexivity.
  - split; assumption.
Defined.

(** ** The sum of all balances *)

Lemma map_set_balance_absent (id : Id) (b : Z) (l : list Account) :
  ~ In id (map account_id l) -> map (set_balance_if id b) l = l.
Proof.
  induction l as [|a l IH]; [reflexivity|].
  cbn [map In]. intros H. rewrite IH by tauto.
  rewrite set_balance_if_other by (intros E; apply H; left; exact E).
  reflexivity.
Qed.

Lemma sum_map_set_balance (id : Id) (b old : Z) (l : list Account) :
  NoDup (map account_id l) ->
  option_map balance (find (has_id id) l) = Some old ->
  fold_right (fun a acc => balance a + acc) 0 (map (set_balance_if id b) l)
  = fold_right (fun a acc => balance a + acc) 0 l - old + b.
Proof.
  induction l as [|a l IH]; [discriminate|].
  cbn [map find fold_right]. intros Hnd Hold.
  inversion Hnd as [|x xs Hnotin Hnd']. subst x xs.
  unfold has_id in Hold at 1. cbn [doc_id Document_Account] in Hold.
  unfold set_balance_if at 1.
  destruct (String.eqb id (account_id a)) eqn:E.
  - apply String.eqb_eq in E. subst id.
    rewrite map_set_balance_absent by exact Hnotin.
    cbn [option_map] in Hold. injection Hold as <-.
    cbn [with_balance balance]. lia.
  - rewrite (IH Hnd' Hold). lia.
Qed.

Lemma total_balance_update (id : Id) (b old : Z) (s s' : Store) :
  store_update Accounts id (SetBalance b) s = Some s' ->
  unique_account_ids s ->
  balanceOf s id = Some old ->
  total_balance s' = total_balance s - old + b.
Proof.
  intros U Hnd Hold. unfold total_balance.
  rewrite (update_balance_accounts _ _ _ _ U).
  apply sum_map_set_balance; assumption.
Qed.

Lemma unique_account_ids_update (id : Id) (b : Z) (s s' : Store) :
  store_update Accounts id (SetBalance b) s = Some s' ->
  unique_account_ids s -> unique_account_ids s'.
Proof.
  intros U. unfold unique_account_ids.
  rewrite (update_balance_accounts _ _ _ _ U), map_map.
  rewrite (map_ext (fun a => account_id (set_balance_if id b a)) account_id)
    by (intros a; apply set_balance_if_id).
  intros H. exact H.
Qed.

Lemma find_unique_account (l : list Account) (a : Account) :
  NoDup (map account_id l) -> In a l -> find (has_id (account_id a)) l = Some a.
Proof.
  induction l as [|x l IH]; [intros _ []|].
  cbn [map find In]. intros Hnd Hin.
  inversion Hnd as [|y ys Hnotin Hnd']. subst y ys.
  unfold has_id at 1. cbn [doc_id Document_Account].
  destruct (String.eqb (account_id a) (account_id x)) eqn:E.
  - destruct Hin as [->|Hin]; [reflexivity|].
    apply String.eqb_eq in E. exfalso. apply Hnotin. rewrite <- E.
    apply in_map. exact Hin.
  - destruct Hin as [->|Hin]; [rewrite String.eqb_refl in E; discriminate|].
    apply IH; assumption.
Qed.

Lemma clearingAccount_in_sync (s : Store) (clr : Account) :
  unique_account_ids s ->
  clearingAccount s = Some clr ->
  balanceOf s (account_id clr) = Some (balance clr).
Proof.
  intros Hnd Hc. unfold balanceOf, lookup. cbn [docs Document_Account].
  rewrite (find_unique_account _ _ Hnd (clearingAccount_In _ _ Hc)). reflexivity.
Qed.

(** X12.  Value over a successful initiation.  On a store with unique
    account ids, let [initiateTransaction] return 200 for a source whose
    resolved record carries its stored balance, and let the amount, the
    source and clearing balances and the two values written (clearing plus
    amount, source minus amount) be integers of magnitude below 2^53, where
    the arithmetic of the source is exact.  Then the sum of all stored
    balances (the exact sum, which the source never computes) is what it
    was before the call if the source is not the clearing account; if the
    source is the clearing account the sum has dropped by the amount. *)
Theorem initiate_total_balance
        (t : Transaction) (s : Store) (w' : World) (from clr : Account) :
  initiateTransaction (enter t s) = (Normal ok_200, w') ->
  resolve s (tx_from t) = Some from ->
  clearingAccount s = Some clr ->
  unique_account_ids s ->
  balanceOf s (account_id from) = Some (balance from) ->
  js_safe_integer (amount t) ->
  js_safe_integer (balance from) ->
  js_safe_integer (balance clr) ->
  js_safe_integer (balance clr + amount t) ->
  js_safe_integer (balance from - amount t) ->
  total_balance (db w') =
  if String.eqb (account_id from) (account_id clr)
  then total_balance s - amount t
  else total_balance s.
Proof.
  intros H Hf Hc Hnd Hsync _ _ _ _ _.
  apply initiate_ok_inv in H. cbn [enter db this_tx log] in H.
  destruct H as (from' & receiver & clr' & s1 & Hf' & _ & _ & Hc' & U1 & U2 & _ & _).
  assert (from' = from) by congruence. subst from'.
  assert (clr' = clr) by congruence. subst clr'.
  pose proof (clearingAccount_in_sync _ _ Hnd Hc) as Hcsync.
  pose proof (total_balance_update _ _ _ _ _ U1 Hnd Hcsync) as T1.
  pose proof (unique_account_ids_update _ _ _ _ U1 Hnd) as Hnd1.
  destruct (String.eqb (account_id from) (account_id clr)) eqn:E.
  - apply String.eqb_eq in E.
    assert (Hold : balanceOf s1 (account_id from) = Some (balance clr + amount t))
      by (rewrite E; apply (update_balance_same _ _ _ _ U1)).
    rewrite (total_balance_update _ _ _ _ _ U2 Hnd1 Hold), T1.
    rewrite E in Hsync. rewrite Hsync in Hcsync. injection Hcsync as Hb. lia.
  - apply String.eqb_neq in E.
    assert (Hold : balanceOf s1 (account_id from) = Some (balance from))
      by (rewrite (update_balance_other _ _ _ _ U1) by exact E; exact Hsync).
    rewrite (total_balance_update _ _ _ _ _ U2 Hnd1 Hold), T1. lia.
Qed.

Lemma unique_ids_scenario_store : unique_account_ids Scenario.store.
Proof.
  unfold unique_account_ids. cbn.
  repeat constructor; cbn; intuition discriminate.
Defined.

Lemma initiate_total_balance_witness :
  total_balance (db (after (initiateTransaction (enter Scenario.pay Scenario.store))))
  = total_balance Scenario.store
  /\ total_balance (db (after (initiateTransaction
                                 (enter Scenario.admin_pays Scenario.store))))
     = total_balance Scenario.store - 100.
Proof.
  split.
  - apply (initiate_total_balance Scenario.pay Scenario.store
             (after (initiateTransaction (enter Scenario.pay Scenario.store)))
             Scenario.alice_account Scenario.clearing);
      [vm_compute; reflexivity | reflexivity | reflexivity
       | exact unique_ids_scenario_store | reflexivity | .. ];
      unfold js_safe_integer; cbn; lia.
  - apply (initiate_total_balance Scenario.admin_pays Scenario.store
             (after (initiateTransaction (enter Scenario.admin_pays Scenario.store)))
             Scenario.clearing Scenario.clearing);
      [vm_compute; reflexivity | reflexivity | reflexivity
       | exact unique_ids_scenario_store | reflexivity | .. ];
      unfold js_safe_integer; cbn; lia.
Defined.

(** X13.  Value over a successful completion.  On a store with unique
    account ids, let [completeTransaction] return 200 for a destination
    whose resolved record carries its stored balance, and let the amount,
    the destination and clearing balances and the two values written
    (clearing minus amount, destination plus amount) be integers of
    magnitude below 2^53, where the arithmetic of the source is exact.  Then
    the sum of all stored balances (the exact sum, which the source never
    computes) is what it was before the call if the destination is not the
    clearing account; if the destination is the clearing account the sum
    has grown by the amount. *)
Theorem complete_total_balance
        (t : Transaction) (s : Store) (w' : World)
        (r : Ref Account) (to clr : Account) :
  completeTransaction (enter t s) = (Normal ok_200, w') ->
  tx_to t = Some r ->
  resolve s r = Some to ->
  clearingAccount s = Some clr ->
  unique_account_ids s ->
  balanceOf s (account_id to) = Some (balance to) ->
  js_safe_integer (amount t) ->
  js_safe_integer (balance to) ->
  js_safe_integer (balance clr) ->
  js_safe_integer (balance clr - amount t) ->
  js_safe_integer (balance to + amount t) ->
  total_balance (db w') =
  if String.eqb (account_id to) (account_id clr)
  then total_balance s + amount t
  else total_balance s.
Proof.
  intros H Ht Hr Hc Hnd Hsync _ _ _ _ _.
  apply complete_ok_inv in H. cbn [enter db this_tx log] in H.
  destruct H as (r' & to' & clr' & s1 & Ht' & Hr' & Hc' & U1 & U2 & _).
  assert (r' = r) by congruence. subst r'.
  assert (to' = to) by congruence. subst to'.
  assert (clr' = clr) by congruence. subst clr'.
  pose proof (clearingAccount_in_sync _ _ Hnd Hc) as Hcsync.
  pose proof (total_balance_update _ _ _ _ _ U1 Hnd Hcsync) as T1.
  pose proof (unique_account_ids_update _ _ _ _ U1 Hnd) as Hnd1.
  destruct (String.eqb (account_id to) (account_id clr)) eqn:E.
  - apply String.eqb_eq in E.
    assert (Hold : balanceOf s1 (account_id to) = Some (balance clr - amount t))
      by (rewrite E; apply (update_balance_same _ _ _ _ U1)).
    rewrite (total_balance_update _ _ _ _ _ U2 Hnd1 Hold), T1.
    rewrite E in Hsync. rewrite Hsync in Hcsync. injection Hcsync as Hb. lia.
  - apply String.eqb_neq in E.
    assert (Hold : balanceOf s1 (account_id to) = Some (balance to))
      by (rewrite (update_balance_other _ _ _ _ U1) by exact E; exact Hsync).
    rewrite (total_balance_update _ _ _ _ _ U2 Hnd1 Hold), T1. lia.
Qed.

Lemma complete_total_balance_witness :
  total_balance (db (after (completeTransaction
                              (enter Cases.pending_transfer Scenario.store))))
  = total_balance Scenario.store
  /\ total_balance (db (after (completeTransaction
                                 (enter Scenario.into_clearing Scenario.store))))
     = total_balance Scenario.store + 100.
Proof.
  split.
  - apply (complete_total_balance Cases.pending_transfer Scenario.store
             (after (completeTransaction
                       (enter Cases.pending_transfer Scenario.store)))
             (ById "a2") Scenario.bob_account Scenario.clearing);
      [vm_compute; reflexivity | reflexivity | reflexivity | reflexivity
       | exact unique_ids_scenario_store | reflexivity | .. ];
      unfold js_safe_integer; cbn; lia.
  - apply (complete_total_balance Scenario.into_clearing Scenario.store
             (after (completeTransaction
                       (enter Scenario.into_clearing Scenario.store)))
             (ById "a0") Scenario.clearing Scenario.clearing);
      [vm_compute; reflexivity | reflexivity | reflexivity | reflexivity
       | exact unique_ids_scenario_store | reflexivity | .. ];
      unfold js_safe_integer; cbn; lia.
Defined.

(** ** Amounts below zero *)




(** * Roles and access: collections/common/index.ts *)

Lemma role_eqb_eq (a b : Role) : role_eqb a b = true <-> a = b.
Proof. destruct a, b; cbn; split; intros H; try reflexivity; discriminate H. Qed.

Lemma existsb_role_In (r : Role) (l : list Role) :
  existsb (role_eqb r) l = true <-> In r l.
Proof.
  rewrite existsb_exists. split.
  - intros (x & Hin & E). apply role_eqb_eq in E. subst x. exact Hin.
  - intros Hin. exists r. split; [exact Hin | apply role_eqb_eq; reflexivity].
Qed.

(** X14.  [checkRole] grants exactly when a user is given, that user has a
    roles array, and some role of [allRoles] is among the user's roles.  So
    a request without a user, a user without roles, and an empty [allRoles]
    are all refused. *)
Theorem checkRole_iff (allRoles : list Role) (user : option TypedUser) :
  checkRole allRoles user = true <->
  exists u rs r,
    user = Some u /\ roles u = Some rs /\ In r allRoles /\ In r rs.
Proof.
  unfold checkRole. destruct user as [u|].
  - destruct (existsb _ allRoles) eqn:E.
    + split; [intros _|reflexivity].
      apply existsb_exists in E. destruct E as (r & Hin & Hr).
      unfold some_opt in Hr. destruct (roles u) as [rs|] eqn:Hrs; [|discriminate].
      apply existsb_exists in Hr. destruct Hr as (x & Hx & Ex).
      apply role_eqb_eq in Ex. subst x.
      exists u, rs, r. auto.
    + split; [discriminate|].
      intros (u' & rs & r & Hu & Hrs & Hin & Hin').
      injection Hu as <-.
      assert (Ht : existsb (fun role =>
                              some_opt (fun individualRole =>
                                          role_eqb individualRole role) (roles u))
                           allRoles = true).
      { apply existsb_exists. exists r. split; [exact Hin|].
        rewrite Hrs. cbn [some_opt]. apply existsb_exists.
        exists r. split; [exact Hin' | apply role_eqb_eq; reflexivity]. }
      rewrite Ht in E. discriminate.
  - split; [discriminate|]. intros (u & _ & _ & Hu & _). discriminate.
Qed.

Lemma in_set_add (r x : Role) (s : list Role) :
  In r (set_add x s) <-> r = x \/ In r s.
Proof.
  unfold set_add. destruct (existsb (role_eqb x) s) eqn:E.
  - apply existsb_role_In in E. split; [auto|]. intros [->|H]; assumption.
  - rewrite in_app_iff. cbn [In]. intuition.
Qed.

Lemma nodup_set_add (x : Role) (s : list Role) : NoDup s -> NoDup (set_add x s).
Proof.
  intros H. unfold set_add. destruct (existsb (role_eqb x) s) eqn:E; [exact H|].
  assert (Hnot : ~ In x s).
  { intros Hin. apply existsb_role_In in Hin. rewrite Hin in E. discriminate. }
  clear E. induction s as [|y s IH]; cbn [app].
  - constructor; [intros []|constructor].
  - inversion H as [|z zs Hy Hs]. subst z zs. constructor.
    + rewrite in_app_iff. cbn [In]. intros [Hin|[E|[]]]; [exact (Hy Hin)|].
      apply Hnot. left. symmetry. exact E.
    + apply IH; [exact Hs|]. intros Hin. apply Hnot. right. exact Hin.
Qed.

Lemma in_fold_set_add (r : Role) (l acc : list Role) :
  In r (fold_left (fun s x => set_add x s) l acc) <-> In r acc \/ In r l.
Proof.
  revert acc. induction l as [|x l IH]; intros acc; cbn [fold_left In].
  - tauto.
  - rewrite IH, in_set_add. intuition.
Qed.

Lemma nodup_fold_set_add (l acc : list Role) :
  NoDup acc -> NoDup (fold_left (fun s x => set_add x s) l acc).
Proof.
  revert acc. induction l as [|x l IH]; intros acc H; cbn [fold_left].
  - exact H.
  - apply IH, nodup_set_add, H.
Qed.

(** X15.  [useProtectRoles] always returns a roles array that contains
    "user" and has no duplicate.  The array contains "admin" exactly when
    the requesting user passes [checkRole] for "admin" and the submitted
    data asks for "admin": a request by a non-admin, or without a user,
    never yields the admin role. *)
Theorem useProtectRoles_result (req_user : option TypedUser)
        (data_roles : option (list Role)) :
  let res := useProtectRoles req_user data_roles in
  In RoleUser res /\
  NoDup res /\
  (In RoleAdmin res <->
   checkRole [RoleAdmin] req_user = true /\
   exists l, data_roles = Some l /\ In RoleAdmin l).
Proof.
  cbv zeta. unfold useProtectRoles.
  assert (Hadm : match req_user with
                 | Some u => some_opt (role_eqb RoleAdmin) (roles u)
                 | None => false
                 end = checkRole [RoleAdmin] req_user).
  { unfold checkRole. destruct req_user as [u|]; [|reflexivity].
    cbn [existsb]. rewrite orb_false_r.
    destruct (roles u) as [rs|]; cbn [some_opt]; [|reflexivity].
    assert (E : existsb (role_eqb RoleAdmin) rs
                = existsb (fun individualRole => role_eqb individualRole RoleAdmin) rs).
    { induction rs as [|x rs IH]; [reflexivity|].
      cbn [existsb]. rewrite IH. destruct x; reflexivity. }
    rewrite E. destruct (existsb _ rs); reflexivity. }
  rewrite Hadm. destruct (checkRole [RoleAdmin] req_user); cbn [negb].
  - split; [apply in_set_add; left; reflexivity|].
    split; [apply nodup_set_add, nodup_fold_set_add; constructor|].
    rewrite in_set_add. unfold new_Set. rewrite in_fold_set_add. cbn [In].
    split.
    + intros [H|[[]|H]]; [discriminate H|]. split; [reflexivity|].
      destruct data_roles as [l|]; [|destruct H]. exists l. auto.
    + intros (_ & l & -> & Hin). right. right. exact Hin.
  - split; [left; reflexivity|].
    split; [constructor; [intros []|constructor]|].
    split; [intros [H|[]]; discriminate H | intros [H _]; discriminate H].
Qed.

(** * collections/Transactions/config.ts *)

(** X16.  The read access function of the transactions collection grants
    every request: [Boolean] of the object literal is true, so the right
    operand of [||] holds for a request without a user, for a user without
    the admin role and for an admin alike, and no [where] constraint is ever
    returned. *)
Theorem transactions_read_grants_everyone (user : option TypedUser) :
  transactions_read user = true.
Proof.
  unfold transactions_read, Boolean_of_object. apply orb_true_r.
Qed.
